(** * pyml_logger: a shallow embedding of [pyml_logger/Log.py]

    The class [Log] keeps static key/value pairs, one nested dictionary of
    dynamic values per iteration, the current iteration index and a stack of
    scope names.  Python dictionaries are association lists in insertion
    order (an assignment to a present key keeps its position, an assignment
    to a new key appends), Python sets are [gset]s, exceptions are results
    of an error type and methods that assign to attributes of [self] are
    state transformers that return the state reached when the exception was
    raised. *)

From Stdlib Require Import ZArith Ascii String.
From stdpp Require Import base list strings gmap.

Local Open Scope string_scope.
Local Open Scope Z_scope.

(** ** Exceptions and results *)

Inductive exn : Type :=
  | IndexError
  | KeyError
  | TypeError
  | AttributeError
  | AssertionError.

Inductive res (A : Type) : Type :=
  | Ok (a : A)
  | Raise (e : exn).
Arguments Ok {A} a.
Arguments Raise {A} e.

Definition rbind {A B : Type} (r : res A) (k : A -> res B) : res B :=
  match r with
  | Ok a => k a
  | Raise e => Raise e
  end.

Declare Scope res_scope.
Delimit Scope res_scope with res.
Notation "'let?' x ':=' r 'in' k" := (rbind r (fun x => k))
  (at level 10, x name, r at level 100, k at level 200) : res_scope.
Local Open Scope res_scope.

(** ** Dictionaries in insertion order *)

Definition dict (V : Type) : Type := list (string * V).

(** [d[k]] as an option, [k in d]. *)
Fixpoint dict_get {V : Type} (d : dict V) (k : string) : option V :=
  match d with
  | [] => None
  | (k', v) :: r => if String.eqb k' k then Some v else dict_get r k
  end.

Definition dict_mem {V : Type} (d : dict V) (k : string) : bool :=
  match dict_get d k with
  | Some _ => true
  | None => false
  end.

(** [d[k] = v]: a present key keeps its place, a new key goes last. *)
Fixpoint dict_set {V : Type} (d : dict V) (k : string) (v : V) : dict V :=
  match d with
  | [] => [(k, v)]
  | (k', v') :: r =>
      if String.eqb k' k then (k', v) :: r else (k', v') :: dict_set r k v
  end.

(** [d.keys()] and [for k in d]. *)
Definition dict_keys {V : Type} (d : dict V) : list string := map fst d.

(** ** Values *)

(** What is stored in the static mapping, in the iteration trees and in the
    cells of the exported arrays.  [VInt] stands for every number: a number
    is neither a dictionary nor a container, which is all the methods below
    ask of it. *)
#[warnings="-register-all"]
Inductive value : Type :=
  | VNone
  | VInt (n : Z)
  | VStr (s : string)
  | VDict (d : dict value).

Definition is_dict (v : value) : bool :=
  match v with
  | VDict _ => true
  | _ => false
  end.

(** ** Strings *)

(** [s.split(sep)] for a one-character separator. *)
Fixpoint split (sep : ascii) (s : string) : list string :=
  match s with
  | EmptyString => [""]
  | String c s' =>
      if Ascii.eqb c sep then "" :: split sep s'
      else match split sep s' with
           | [] => [String c ""]
           | h :: r => String c h :: r
           end
  end.

(** [sep.join(l)]. *)
Fixpoint join (sep : string) (l : list string) : string :=
  match l with
  | [] => ""
  | [x] => x
  | x :: r => x ++ sep ++ join sep r
  end.

(** [l.startswith(p)]. *)
Fixpoint startswith (p l : string) : bool :=
  match p, l with
  | EmptyString, _ => true
  | String a p', String b l' => Ascii.eqb a b && startswith p' l'
  | String _ _, EmptyString => false
  end.

(** [l[n:]]. *)
Fixpoint str_drop (n : nat) (l : string) : string :=
  match n, l with
  | O, _ => l
  | S n', String _ l' => str_drop n' l'
  | S _, EmptyString => ""
  end.

(** [s in t] for two strings: [s] occurs in [t]. *)
Fixpoint str_contains (t s : string) : bool :=
  startswith s t ||
  match t with
  | EmptyString => false
  | String _ t' => str_contains t' s
  end.

Definition ITERATION_KEY : string := "_iteration".
Definition SCOPE_SEP : ascii := "."%char.

(** ** Lists with Python indices *)

(** The position that index [i] names in a list of length [n]: a negative
    index counts from the end. *)
Definition py_pos (n : nat) (i : Z) : option nat :=
  let j := if i <? 0 then i + Z.of_nat n else i in
  if (j <? 0) || (Z.of_nat n <=? j) then None else Some (Z.to_nat j).

(** [l[i]]. *)
Definition py_index {A : Type} (l : list A) (i : Z) : res A :=
  match py_pos (length l) i with
  | None => Raise IndexError
  | Some j =>
      match l !! j with
      | Some x => Ok x
      | None => Raise IndexError
      end
  end.

(** [l[i] = x] where [l[i]] exists. *)
Definition py_store {A : Type} (l : list A) (i : Z) (x : A) : list A :=
  match py_pos (length l) i with
  | None => l
  | Some j => <[j := x]> l
  end.

(** [l.pop()] on a list: the rest and the last element. *)
Fixpoint list_pop {A : Type} (l : list A) : option (list A * A) :=
  match l with
  | [] => None
  | x :: r =>
      match list_pop r with
      | None => Some ([], x)
      | Some (r', y) => Some (x :: r', y)
      end
  end.

(** ** Subscripts and membership on values *)

(** [k in v]: a key of a dictionary, a substring of a string; a number and
    [None] are not iterable. *)
Definition py_contains (v : value) (k : string) : res bool :=
  match v with
  | VDict d => Ok (dict_mem d k)
  | VStr s => Ok (str_contains s k)
  | VNone | VInt _ => Raise TypeError
  end.

(** [v[k]] for a string [k]. *)
Definition py_getitem (v : value) (k : string) : res value :=
  match v with
  | VDict d =>
      match dict_get d k with
      | Some x => Ok x
      | None => Raise KeyError
      end
  | VStr _ | VNone | VInt _ => Raise TypeError
  end.

(** [v[k] = x]: the object [v] after the assignment. *)
Definition py_setitem (v : value) (k : string) (x : value) : res value :=
  match v with
  | VDict d => Ok (VDict (dict_set d k x))
  | VStr _ | VNone | VInt _ => Raise TypeError
  end.

(** ** The log *)

Record Log : Type := mkLog {
  s_var : dict value;
  d_var : list value;
  t : Z;
  scopes : list string
}.

(** [Log.__init__]. *)
Definition Log_init : Log :=
  {| s_var := []; d_var := []; t := -1; scopes := [] |}.

Definition set_s_var (self : Log) (x : dict value) : Log :=
  {| s_var := x; d_var := d_var self; t := t self; scopes := scopes self |}.
Definition set_d_var (self : Log) (x : list value) : Log :=
  {| s_var := s_var self; d_var := x; t := t self; scopes := scopes self |}.
Definition set_t (self : Log) (x : Z) : Log :=
  {| s_var := s_var self; d_var := d_var self; t := x; scopes := scopes self |}.
Definition set_scopes (self : Log) (x : list string) : Log :=
  {| s_var := s_var self; d_var := d_var self; t := t self; scopes := x |}.

(** ** Methods that assign to [self]

    A method is a function from the log before the call to its outcome and
    the log after the call; when it raises, the log is what the statements
    executed so far have made of it. *)

Definition M (A : Type) : Type := Log -> res A * Log.

Definition ret {A : Type} (a : A) : M A := fun self => (Ok a, self).

Definition bind {A B : Type} (m : M A) (k : A -> M B) : M B :=
  fun self =>
    match m self with
    | (Ok a, self') => k a self'
    | (Raise e, self') => (Raise e, self')
    end.

Definition get : M Log := fun self => (Ok self, self).
Definition modify (f : Log -> Log) : M unit := fun self => (Ok tt, f self).
Definition lift {A : Type} (r : res A) : M A := fun self => (r, self).

Declare Scope method_scope.
Delimit Scope method_scope with method.
Notation "x <- m ;; k" := (bind m (fun x => k))
  (at level 100, m at next level, right associativity) : method_scope.
Notation "m ;; k" := (bind m (fun _ => k))
  (at level 100, right associativity) : method_scope.

(** [for x in l: body(x)]. *)
Fixpoint for_each {A : Type} (l : list A) (body : A -> M unit) : M unit :=
  match l with
  | [] => ret tt
  | x :: r => (body x ;; for_each r body)%method
  end.

(** [for x in l: acc.append(f(x))] for a body [f] that may raise. *)
Fixpoint res_map {A B : Type} (f : A -> res B) (l : list A) : res (list B) :=
  match l with
  | [] => Ok []
  | x :: r =>
      let? y := f x in
      let? ys := res_map f r in
      Ok (y :: ys)
  end.

Definition push_scope (name : string) : M unit :=
  modify (fun self => set_scopes self (scopes self ++ [name])).

(** The argument of [push_scopes]: [None], a string or a list of names. *)
Inductive names_arg : Type :=
  | NamesNone
  | NamesStr (s : string)
  | NamesList (l : list string).

Definition push_scopes (names : names_arg) : M nat :=
  match names with
  | NamesNone => ret 0%nat
  | NamesStr s =>
      let names := split SCOPE_SEP s in
      (for_each names push_scope ;; ret (length names))%method
  | NamesList names =>
      (for_each names push_scope ;; ret (length names))%method
  end.

Definition pop_scope : M string :=
  fun self =>
    match list_pop (scopes self) with
    | None => (Raise IndexError, self)
    | Some (rest, s) => (Ok s, set_scopes self rest)
    end.

Fixpoint pop_scopes (n : nat) : M unit :=
  match n with
  | O => ret tt
  | S n' => (_ <- pop_scope ;; pop_scopes n')%method
  end.

Definition add_static_value (key : string) (val : value) : M unit :=
  modify (fun self => set_s_var self (dict_set (s_var self) key val)).

Definition add_static_values (kwargs : dict value) : M unit :=
  for_each kwargs (fun kv => add_static_value (fst kv) (snd kv)).

(** The loop of [add_dynamic_value] on the object [tt]: the object after
    [key] has been assigned below the scopes [ss], each missing scope being
    created as an empty dictionary.  The assignments happen in place, so the
    child that the loop goes into is written back under its scope. *)
Fixpoint set_path (ss : list string) (key : string) (val : value) (tt : value)
    : res value :=
  match ss with
  | [] => py_setitem tt key val
  | s :: rest =>
      let? c := py_contains tt s in
      let? tt1 := (if negb c then py_setitem tt s (VDict []) else Ok tt) in
      let? child := py_getitem tt1 s in
      let? child' := set_path rest key val child in
      py_setitem tt1 s child'
  end.

Definition add_dynamic_value (key : string) (val : value) : M unit :=
  (self <- get ;;
   tt <- lift (py_index (d_var self) (t self)) ;;
   tt' <- lift (set_path (scopes self) key val tt) ;;
   modify (fun self => set_d_var self (py_store (d_var self) (t self) tt')))%method.

Definition new_iteration : M unit :=
  (modify (fun self => set_t self (t self + 1)) ;;
   modify (fun self => set_d_var self (d_var self ++ [VDict []])) ;;
   self <- get ;;
   add_dynamic_value ITERATION_KEY (VInt (t self)) ;;
   modify (fun self => set_scopes self []))%method.

Definition add_dynamic_values (scope_ : names_arg) (kwargs : dict value) : M unit :=
  (n_scopes <- push_scopes scope_ ;;
   for_each kwargs (fun kv => add_dynamic_value (fst kv) (snd kv)) ;;
   pop_scopes n_scopes)%method.

(** The argument of [set_state]: what [get_state] returns. *)
Record State : Type := mkState {
  state_t : Z;
  state_d_var : list value
}.

Definition get_state (self : Log) : State :=
  {| state_t := t self; state_d_var := d_var self |}.

Definition set_state (state : State) : M unit :=
  (modify (fun self => set_t self (state_t state)) ;;
   self <- get ;;
   (if Nat.eqb (length (d_var self)) 0 then ret tt else lift (Raise AssertionError)) ;;
   for_each (state_d_var state)
     (fun step => modify (fun self => set_d_var self (d_var self ++ [step]))))%method.

(** ** Methods that only read [self] *)

(** The loop of [get_last_dynamic_value] over the scopes [ss], from the
    object [values] and the result [r] found so far. *)
Fixpoint last_walk (ss : list string) (key : string) (values : value) (r : value)
    : res value :=
  match ss with
  | [] => Ok r
  | s :: rest =>
      let? c := py_contains values s in
      if negb c then Ok r
      else
        let? values' := py_getitem values s in
        let? has := py_contains values' key in
        let? r' := (if has then py_getitem values' key else Ok r) in
        last_walk rest key values' r'
  end.

Definition get_last_dynamic_value (self : Log) (key : string) : res value :=
  let? values := py_index (d_var self) (t self) in
  let? has := py_contains values key in
  let? r := (if has then py_getitem values key else Ok VNone) in
  last_walk (scopes self) key values r.

(** The loop of [get_scoped_value] over the segments of the name. *)
Fixpoint scoped_walk (scope : list string) (tt : value) : res value :=
  match scope with
  | [] => Ok tt
  | s :: rest =>
      let? c := py_contains tt s in
      if negb c then Ok VNone
      else
        let? tt' := py_getitem tt s in
        scoped_walk rest tt'
  end.

Definition get_scoped_value (self : Log) (ti : Z) (name : string) : res value :=
  let scope := split "."%char name in
  let? tt := py_index (d_var self) ti in
  scoped_walk scope tt.

(** [_generate_columns_names_from_dict] on the items of a dictionary.  The
    source appends [k] to the shared list [scope] before the recursive call
    and pops it afterwards, which is the call with [scope ++ [k]]. *)
Fixpoint columns_of_value (d : value) (scope : list string) : gset string :=
  match d with
  | VDict items =>
      (fix loop (items : dict value) : gset string :=
         match items with
         | [] => ∅
         | (k, x) :: r =>
             (if is_dict x then columns_of_value x (scope ++ [k])
              else {[ join "." (scope ++ [k]) ]}) ∪ loop r
         end) items
  | VNone | VInt _ | VStr _ => ∅
  end.

(** [d.keys()] exists on a dictionary only. *)
Definition _generate_columns_names_from_dict (d : value) (scope : list string)
    : res (gset string) :=
  match d with
  | VDict _ => Ok (columns_of_value d scope)
  | VNone | VInt _ | VStr _ => Raise AttributeError
  end.

(** The loop of [_generate_columns_names] over the iterations [ts]. *)
Fixpoint columns_loop (self : Log) (ts : list nat) (columns : gset string)
    : res (gset string) :=
  match ts with
  | [] => Ok columns
  | ti :: rest =>
      let? tt := py_index (d_var self) (Z.of_nat ti) in
      let? cc := _generate_columns_names_from_dict tt [] in
      columns_loop self rest (columns ∪ cc)
  end.

(** [range(n)] for an integer [n]. *)
Definition range (n : Z) : list nat := seq 0 (Z.to_nat n).

Definition _generate_columns_names (self : Log) : res (list string) :=
  let? columns := columns_loop self (range (t self + 1)) ∅ in
  Ok (elements columns).

Definition to_array (self : Log) : res (list (list value)) :=
  let? names := _generate_columns_names self in
  let? rows :=
    res_map (fun ti => res_map (fun name => get_scoped_value self (Z.of_nat ti) name) names)
            (range (Z.of_nat (length (d_var self)))) in
  Ok (map VStr names :: rows).

(** The names of the header of [to_extended_array], from the dynamic
    column names. *)
Definition extended_names (self : Log) (names : list string) : list string :=
  (("_iteration" :: names) ++ map (String.append "_s_") (dict_keys (s_var self)))%list.

(** One cell of a data row of [to_extended_array]. *)
Definition extended_cell (self : Log) (ti : nat) (l : string) : res value :=
  if startswith "_s_" l then py_getitem (VDict (s_var self)) (str_drop 3 l)
  else if String.eqb l "_iteration" then Ok (VInt (Z.of_nat ti))
  else get_scoped_value self (Z.of_nat ti) l.

Definition to_extended_array (self : Log) : res (list (list value)) :=
  let? names := _generate_columns_names self in
  let names := extended_names self names in
  let retour := [map VStr names] in
  let? rows :=
    res_map (fun ti => res_map (extended_cell self ti) names)
            (range (Z.of_nat (length (d_var self)))) in
  Ok (retour ++ rows)%list.

(** ** Merging several logs *)

(** [l[i]] for an index that a [range] produced. *)
Definition nth_item {A : Type} (l : list A) (i : nat) : res A :=
  match l !! i with
  | Some x => Ok x
  | None => Raise IndexError
  end.

(** A cell of a header row as a dictionary key.  The header row of
    [to_extended_array] holds strings only. *)
Definition header_name (c : value) : res string :=
  match c with
  | VStr s => Ok s
  | VNone | VInt _ | VDict _ => Raise TypeError
  end.

(** The loop over [j]: the index of one log and the columns seen so far. *)
Fixpoint index_loop (columns_names : list value) (j : nat)
    (index : dict nat) (all_columns : dict Z) : res (dict nat * dict Z) :=
  match columns_names with
  | [] => Ok (index, all_columns)
  | c :: r =>
      let? name := header_name c in
      index_loop r (S j) (dict_set index name j) (dict_set all_columns name 1)
  end.

(** The first loop over [i]. *)
Fixpoint indexes_loop (arrays : list (list (list value)))
    (indexes : list (dict nat)) (all_columns : dict Z)
    : res (list (dict nat) * dict Z) :=
  match arrays with
  | [] => Ok (indexes, all_columns)
  | arr :: r =>
      let? columns_names := nth_item arr 0 in
      let? ic := index_loop columns_names 0 [] all_columns in
      indexes_loop r (indexes ++ [fst ic]) (snd ic)
  end.

(** The second loop over [idx_c], on the names from position [idx_c] on. *)
Fixpoint line_loop (names : list string) (idx_c : nat) (i : nat)
    (filename : string) (index : dict nat) (line : list value)
    (new_line : list value) : res (list value) :=
  match names with
  | [] => Ok new_line
  | column_name :: r =>
      let? new_line' :=
        (if String.eqb column_name "_log_file"
         then Ok (<[idx_c := VStr filename]> new_line)
         else if String.eqb column_name "_log_idx"
         then Ok (<[idx_c := VInt (Z.of_nat i)]> new_line)
         else match dict_get index column_name with
              | Some idx =>
                  let? x := nth_item line idx in
                  Ok (<[idx_c := x]> new_line)
              | None => Ok new_line
              end) in
      line_loop r (S idx_c) i filename index line new_line'
  end.

(** The body of the loop over [rt]: the merged row of row [rt + 1]. *)
Definition merged_line (all_names : list string) (i : nat) (filename : string)
    (index : dict nat) (arr : list (list value)) (rt : nat) : res (list value) :=
  let ti := (rt + 1)%nat in
  let? line := nth_item arr ti in
  let new_line := replicate (length all_names) VNone in
  line_loop all_names 0 i filename index line new_line.

(** The body of the second loop over [i]: the merged rows of log [i]. *)
Definition merged_rows (all_names : list string) (filenames : list string)
    (arrays : list (list (list value))) (indexes : list (dict nat)) (i : nat)
    : res (list (list value)) :=
  let? arr := nth_item arrays i in
  let? filename := nth_item filenames i in
  let? index := nth_item indexes i in
  res_map (merged_line all_names i filename index arr)
          (range (Z.of_nat (length arr) - 1)).

(** [logs_to_dataframe] on files that hold the given logs; the result is
    the pair of [columns] and [data] that the data frame is built from. *)
Definition logs_to_dataframe (files : list (string * Log))
    : res (list string * list (list value)) :=
  let filenames := map fst files in
  let? arrays := res_map (fun f => to_extended_array (snd f)) files in
  let? ic := indexes_loop arrays [] [] in
  let indexes := fst ic in
  let all_columns := snd ic in
  let all_names := (["_log_idx"; "_log_file"] ++ dict_keys all_columns)%list in
  let? rows :=
    res_map (merged_rows all_names filenames arrays indexes)
            (range (Z.of_nat (length arrays))) in
  Ok (all_names, concat rows).

(** ** Running the methods *)

(** The log after a method call, whether it returned or raised. *)
Definition exec {A : Type} (m : M A) (self : Log) : Log := snd (m self).

(** The names that [push_scopes] pushes for an argument. *)
Definition pushed_names (names : names_arg) : list string :=
  match names with
  | NamesNone => []
  | NamesStr s => split SCOPE_SEP s
  | NamesList l => l
  end.

(** A path of keys addresses a node of a tree: every key is looked up in a
    dictionary. *)
Inductive addresses : value -> list string -> value -> Prop :=
  | addresses_here (v : value) : addresses v [] v
  | addresses_below (d : dict value) (k : string) (path : list string)
      (child v : value) :
      dict_get d k = Some child ->
      addresses child path v ->
      addresses (VDict d) (k :: path) v.

(** ** Recording operations and what the properties are stated with *)

(** The recording operations of a log. *)
Inductive record_op : Type :=
  | OpNewIteration
  | OpPushScope (name : string)
  | OpPushScopes (names : names_arg)
  | OpPopScope
  | OpPopScopes (n : nat)
  | OpAddStaticValue (key : string) (val : value)
  | OpAddStaticValues (kwargs : dict value)
  | OpAddDynamicValue (key : string) (val : value)
  | OpAddDynamicValues (scope_ : names_arg) (kwargs : dict value).

(** The log after one operation, whether it returned or raised. *)
Definition run_op (o : record_op) (self : Log) : Log :=
  match o with
  | OpNewIteration => exec new_iteration self
  | OpPushScope name => exec (push_scope name) self
  | OpPushScopes names => exec (push_scopes names) self
  | OpPopScope => exec pop_scope self
  | OpPopScopes n => exec (pop_scopes n) self
  | OpAddStaticValue key val => exec (add_static_value key val) self
  | OpAddStaticValues kwargs => exec (add_static_values kwargs) self
  | OpAddDynamicValue key val => exec (add_dynamic_value key val) self
  | OpAddDynamicValues scope_ kwargs => exec (add_dynamic_values scope_ kwargs) self
  end.

Definition run_ops (ops : list record_op) (self : Log) : Log :=
  fold_left (fun s o => run_op o s) ops self.

(** [len(self.d_var) == self.t + 1]. *)
Definition counted (self : Log) : Prop :=
  Z.of_nat (length (d_var self)) = t self + 1.

(** A method that leaves [t] and the number of iterations as they are,
    however it ends. *)
Definition keeps {A : Type} (m : M A) : Prop :=
  forall self, t (snd (m self)) = t self /\
               length (d_var (snd (m self))) = length (d_var self).

(** The array has a column of that name. *)
Definition has_column (arr : list (list value)) (n : string) : Prop :=
  exists header, arr !! 0%nat = Some header /\ VStr n ∈ header.

(** What the merged row of log [i] holds under the name [cn], from the row
    [line] of that log and the index of its header. *)
Definition merged_cell (i : nat) (filename : string) (index : dict nat)
    (line : list value) (cn : string) : value :=
  if String.eqb cn "_log_file" then VStr filename
  else if String.eqb cn "_log_idx" then VInt (Z.of_nat i)
  else match dict_get index cn with
       | Some idx => default VNone (line !! idx)
       | None => VNone
       end.

(** The index of a header: every name of the header is sent to a position
    that holds it, and no other name is sent anywhere. *)
Definition indexes_header (hs : list string) (index : dict nat) : Prop :=
  (forall n, n ∉ hs -> dict_get index n = None) /\
  (forall n, n ∈ hs -> exists q, hs !! q = Some n /\ dict_get index n = Some q).

(** ** The remaining readers of the log *)

(** The loop of [_get_dtable] over the scopes: a plain subscript at every
    step. *)
Fixpoint dtable_walk (scope : list string) (tt : value) : res value :=
  match scope with
  | [] => Ok tt
  | s :: rest =>
      let? tt' := py_getitem tt s in
      dtable_walk rest tt'
  end.

Definition _get_dtable (self : Log) (scope : list string) (ti : Z) : res value :=
  let? tt := py_index (d_var self) ti in
  dtable_walk scope tt.

Definition get_column (self : Log) (key : string) : res (list value) :=
  res_map (fun d => py_getitem d key) (d_var self).

Definition get_static_values (self : Log) : dict value := s_var self.

(** The argument [columns] of [plot_line]: one name or a list of names. *)
Inductive columns_arg : Type :=
  | ColumnsName (s : string)
  | ColumnsList (l : list string).

(** [None in cur_values]. *)
Definition has_none (l : list value) : bool :=
  existsb (fun v => match v with VNone => true | _ => false end) l.

(** The loop of [plot_line] over the iterations [ts], with the lists [x]
    and [values] built so far. *)
Fixpoint plot_loop (self : Log) (columns : list string) (x_name : string)
    (ts : list nat) (x : list value) (values : list (list value))
    : res (list value * list (list value)) :=
  match ts with
  | [] => Ok (x, values)
  | ti :: rest =>
      let? cur_values :=
        res_map (fun key => get_scoped_value self (Z.of_nat ti) key) columns in
      if negb (has_none cur_values) then
        let values' := (values ++ [cur_values])%list in
        let? xv := get_scoped_value self (Z.of_nat ti) x_name in
        plot_loop self columns x_name rest (x ++ [xv])%list values'
      else plot_loop self columns x_name rest x values
  end.

(** [if type(columns) is not list: columns = [columns]]. *)
Definition columns_list (columns : columns_arg) : list string :=
  match columns with
  | ColumnsName s => [s]
  | ColumnsList l => l
  end.

(** [if x_name is None: x_name = self.ITERATION_KEY]. *)
Definition x_name_or_default (x_name : option string) : string :=
  match x_name with
  | None => ITERATION_KEY
  | Some n => n
  end.

(** [plot_line] up to the call of the plotting server: [None] when the log
    has no iteration, otherwise the lists [x] and [values] that are turned
    into arrays and sent. *)
Definition plot_line (self : Log) (columns : columns_arg) (x_name : option string)
    : res (option (list value * list (list value))) :=
  if Nat.eqb (length (d_var self)) 0 then Ok None
  else
    let columns := columns_list columns in
    let x_name := x_name_or_default x_name in
    let? xy := plot_loop self columns x_name (range (t self + 1)) [] [] in
    Ok (Some xy).

(** All the columns of [plot_line] have a value in iteration [ti]. *)
Definition complete_at (self : Log) (columns : list string) (ti : nat) : bool :=
  match res_map (fun key => get_scoped_value self (Z.of_nat ti) key) columns with
  | Ok row => negb (has_none row)
  | Raise _ => false
  end.

(** ** What the further properties are stated with *)

(** A name without the scope separator. *)
Fixpoint dotless (s : string) : bool :=
  match s with
  | EmptyString => true
  | String c s' => negb (Ascii.eqb c SCOPE_SEP) && dotless s'
  end.

(** An operation that records no dictionary as a value.  The trees of a log
    built by such operations hold only dictionaries that [new_iteration] and
    [add_dynamic_value] created themselves, each under one path; trees are
    values here, so this is where a write in the model and the assignment in
    place of the source change the same paths. *)
Definition scalar_op (o : record_op) : Prop :=
  match o with
  | OpAddDynamicValue _ val => is_dict val = false
  | OpAddDynamicValues _ kwargs => Forall (fun kv => is_dict (snd kv) = false) kwargs
  | OpNewIteration | OpPushScope _ | OpPushScopes _ | OpPopScope | OpPopScopes _
  | OpAddStaticValue _ _ | OpAddStaticValues _ => True
  end.

(** A method that leaves the scope stack as it is, however it ends. *)
Definition keeps_scopes {A : Type} (m : M A) : Prop :=
  forall self, scopes (snd (m self)) = scopes self.

(** An array whose first row is a header of names and whose other rows are
    as wide as the header. *)
Definition well_shaped (arr : list (list value)) : Prop :=
  exists hs rows,
    arr = map VStr hs :: rows /\ Forall (fun row => length row = length hs) rows.

(** * Properties *)

Ltac case_cmp :=
  repeat match goal with
    | |- context [Z.ltb ?a ?b] => destruct (Z.ltb_spec a b); simpl
    | |- context [Z.leb ?a ?b] => destruct (Z.leb_spec a b); simpl
    end.

(** ** Dictionaries *)

Lemma dict_get_set_eq {V : Type} (d : dict V) (k : string) (v : V) :
  dict_get (dict_set d k v) k = Some v.
Proof.
  induction d as [|[k' v'] r IH]; simpl.
  - by rewrite String.eqb_refl.
  - destruct (String.eqb k' k) eqn:E; simpl; rewrite E; [done | exact IH].
Qed.

Lemma dict_get_set_ne {V : Type} (d : dict V) (k k' : string) (v : V) :
  k <> k' -> dict_get (dict_set d k v) k' = dict_get d k'.
Proof.
  intros Hne. induction d as [|[k0 v0] r IH]; simpl.
  - apply String.eqb_neq in Hne. by rewrite Hne.
  - destruct (String.eqb k0 k) eqn:E; simpl.
    + apply String.eqb_eq in E. subst k0.
      apply String.eqb_neq in Hne. by rewrite Hne.
    + by rewrite IH.
Qed.

Lemma dict_mem_get {V : Type} (d : dict V) (k : string) :
  dict_mem d k = true <-> is_Some (dict_get d k).
Proof.
  unfold dict_mem. destruct (dict_get d k); split; intros H; done.
Qed.

Lemma dict_get_keys {V : Type} (d : dict V) (k : string) :
  k ∈ dict_keys d <-> is_Some (dict_get d k).
Proof.
  unfold dict_keys. induction d as [|[k' v'] r IH]; simpl.
  - split; [intros H; inversion H | intros [? ?]; done].
  - rewrite elem_of_cons. destruct (String.eqb k' k) eqn:E.
    + apply String.eqb_eq in E. subst. split; [by eexists | by left].
    + apply String.eqb_neq in E. rewrite <- IH. split; [intros [?|?] | intros ?]; auto.
      congruence.
Qed.

Lemma dict_keys_set {V : Type} (d : dict V) (k k' : string) (v : V) :
  k' ∈ dict_keys (dict_set d k v) <-> k' = k \/ k' ∈ dict_keys d.
Proof.
  rewrite !dict_get_keys. destruct (decide (k = k')) as [->|Hne].
  - rewrite dict_get_set_eq. split; [by left | by eexists].
  - rewrite dict_get_set_ne by done. split; [by right | intros [?|?]; congruence].
Qed.

(** ** Lists with Python indices *)

Lemma py_pos_lt (n : nat) (i : Z) (j : nat) : py_pos n i = Some j -> (j < n)%nat.
Proof.
  unfold py_pos. cbv zeta. destruct (Z.ltb_spec i 0); case_cmp; try done; intros [= <-]; lia.
Qed.

Lemma py_pos_nat (n i : nat) :
  py_pos n (Z.of_nat i) = if decide (i < n)%nat then Some i else None.
Proof.
  unfold py_pos. cbv zeta. destruct (Z.ltb_spec (Z.of_nat i) 0); [lia|].
  case_cmp; case_decide; try lia; try done. by rewrite Nat2Z.id.
Qed.

Lemma py_index_nat {A : Type} (l : list A) (i : nat) :
  py_index l (Z.of_nat i) = nth_item l i.
Proof.
  unfold py_index, nth_item. rewrite py_pos_nat. case_decide; [done|].
  rewrite lookup_ge_None_2; [done | lia].
Qed.

Lemma py_index_store {A : Type} (l : list A) (i : Z) (x y : A) :
  py_index l i = Ok x -> py_index (py_store l i y) i = Ok y.
Proof.
  unfold py_index, py_store.
  destruct (py_pos (length l) i) as [j|] eqn:E; [|done].
  intros _. rewrite length_insert, E.
  rewrite list_lookup_insert_eq; [done | by eapply py_pos_lt].
Qed.

Lemma py_store_length {A : Type} (l : list A) (i : Z) (y : A) :
  length (py_store l i y) = length l.
Proof. unfold py_store. destruct (py_pos _ _); [apply length_insert | done]. Qed.

Lemma list_pop_app {A : Type} (l : list A) (x : A) :
  list_pop (l ++ [x]) = Some (l, x).
Proof.
  induction l as [|y r IH]; simpl; [done|]. by rewrite IH.
Qed.

(** ** Strings *)

Lemma split_nonempty (sep : ascii) (s : string) : (1 <= length (split sep s))%nat.
Proof.
  induction s as [|c s' IH]; simpl; [lia|].
  destruct (Ascii.eqb c sep); simpl; [lia|].
  destruct (split sep s'); simpl in *; lia.
Qed.

(** ** The scope stack *)

Lemma for_each_push_scope (names : list string) (self : Log) :
  for_each names push_scope self = (Ok tt, set_scopes self (scopes self ++ names)).
Proof.
  revert self. induction names as [|n r IH]; intros self; simpl.
  - unfold ret. destruct self; simpl. by rewrite app_nil_r.
  - unfold bind, push_scope, modify. rewrite IH. unfold set_scopes; simpl.
    by rewrite <- app_assoc.
Qed.

Lemma push_scopes_spec (names : names_arg) (self : Log) :
  push_scopes names self =
    (Ok (length (pushed_names names)),
     set_scopes self (scopes self ++ pushed_names names)).
Proof.
  destruct names as [|s|l]; simpl.
  - unfold ret. destruct self; simpl. by rewrite app_nil_r.
  - unfold bind. by rewrite for_each_push_scope.
  - unfold bind. by rewrite for_each_push_scope.
Qed.

Lemma pop_scopes_app (names : list string) (self : Log) :
  pop_scopes (length names) (set_scopes self (scopes self ++ names)) = (Ok tt, self).
Proof.
  induction names as [|n r IH] using rev_ind; simpl.
  - unfold ret. destruct self; simpl. by rewrite app_nil_r.
  - rewrite length_app. simpl. rewrite Nat.add_1_r. simpl.
    unfold bind, pop_scope. simpl. rewrite app_assoc, list_pop_app.
    unfold set_scopes in *. simpl. exact IH.
Qed.

(** C5, as the code has it: [push_scopes] pushes the names of its argument
    in order and returns how many they are, so that popping that many
    restores the log; [None] and the empty list push nothing and return 0; a
    string is split on the separator, which always gives at least one name,
    and the empty string pushes the one scope named by the empty string and
    returns 1. *)
Theorem push_scopes_count :
  (forall names self,
     push_scopes names self =
       (Ok (length (pushed_names names)),
        set_scopes self (scopes self ++ pushed_names names))) /\
  (forall names self,
     (n <- push_scopes names ;; pop_scopes n)%method self = (Ok tt, self)) /\
  (forall self, push_scopes NamesNone self = (Ok 0%nat, self)) /\
  (forall self, push_scopes (NamesList []) self = (Ok 0%nat, self)) /\
  (forall s, (1 <= length (pushed_names (NamesStr s)))%nat) /\
  (forall self,
     push_scopes (NamesStr "") self = (Ok 1%nat, set_scopes self (scopes self ++ [""]))).
Proof.
  split; [exact push_scopes_spec|].
  split.
  { intros names self. unfold bind. rewrite push_scopes_spec. apply pop_scopes_app. }
  split; [done|].
  split.
  { intros self. rewrite push_scopes_spec. simpl. destruct self; simpl.
    unfold set_scopes; simpl. by rewrite app_nil_r. }
  split; [intros s; apply split_nonempty|].
  intros self. by rewrite push_scopes_spec.
Qed.

(** C5 as stated fails: the empty string is not a no-op that returns 0. *)
Lemma push_scopes_empty_string_pushes :
  push_scopes (NamesStr "") Log_init <> (Ok 0%nat, Log_init) /\
  push_scopes (NamesStr "") Log_init = (Ok 1%nat, set_scopes Log_init [""]).
Proof. split; [discriminate | reflexivity]. Qed.

(** ** Recording *)

(** Below a dictionary that was just created nothing can raise, so an
    exception of [add_dynamic_value] leaves no scope behind. *)
Lemma set_path_fresh (ss : list string) (key : string) (val : value) :
  exists d, set_path ss key val (VDict []) = Ok (VDict d).
Proof.
  induction ss as [|s rest IH]; simpl.
  - by eexists.
  - rewrite String.eqb_refl. simpl. destruct IH as [d ->]. simpl. by eexists.
Qed.

(** C1 on the code: a scope left on the stack when [new_iteration] is called
    receives the iteration index, because the stack is cleared after the
    index is recorded.  The tree of the second iteration has no top-level
    [_iteration]. *)
Theorem new_iteration_records_below_stale_scope :
  (new_iteration ;; push_scope "train" ;; add_dynamic_value "loss" (VInt 1) ;;
   new_iteration)%method Log_init
  = (Ok tt,
     {| s_var := [];
        d_var := [VDict [("_iteration", VInt 0); ("train", VDict [("loss", VInt 1)])];
                  VDict [("train", VDict [("_iteration", VInt 1)])]];
        t := 1;
        scopes := [] |}) /\
  get_scoped_value
    (exec (new_iteration ;; push_scope "train" ;; add_dynamic_value "loss" (VInt 1) ;;
           new_iteration)%method Log_init) 1 "_iteration" = Ok VNone /\
  get_scoped_value
    (exec (new_iteration ;; push_scope "train" ;; add_dynamic_value "loss" (VInt 1) ;;
           new_iteration)%method Log_init) 1 "train._iteration" = Ok (VInt 1).
Proof. repeat split; reflexivity. Qed.

(** ** Restoring a state *)

Lemma set_state_nonempty (state : State) (self : Log) :
  d_var self <> [] ->
  set_state state self = (Raise AssertionError, set_t self (state_t state)).
Proof.
  intros H. unfold set_state, bind, modify, get. simpl.
  destruct (d_var self) as [|x r] eqn:E; [done|]. simpl. unfold lift. done.
Qed.

(** C2 on the code: on a log with one iteration [set_state] raises the
    assertion error, and the log it leaves has the new [t], because [t] is
    assigned before the assertion. *)
Theorem set_state_assigns_t_before_assert :
  set_state {| state_t := 5; state_d_var := [] |} (exec new_iteration Log_init)
  = (Raise AssertionError,
     {| s_var := []; d_var := [VDict [("_iteration", VInt 0)]]; t := 5; scopes := [] |}) /\
  t (exec new_iteration Log_init) = 0 /\
  d_var (exec new_iteration Log_init) = [VDict [("_iteration", VInt 0)]].
Proof. repeat split; reflexivity. Qed.

(** ** Looking a dotted name up *)

Lemma scoped_walk_addresses (tree : value) (path : list string) (v : value) :
  addresses tree path v -> scoped_walk path tree = Ok v.
Proof.
  induction 1 as [v|d k path child v Hget _ IH]; simpl; [done|].
  unfold dict_mem. rewrite Hget. simpl. exact IH.
Qed.

(** A segment that is missing from a dictionary gives [None]. *)
Lemma scoped_walk_missing (d : dict value) (s : string) (rest : list string) :
  dict_get d s = None -> scoped_walk (s :: rest) (VDict d) = Ok VNone.
Proof. intros H. simpl. unfold dict_mem. by rewrite H. Qed.

(** C4 on the code: the name [loss.x] is absent from a tree in which [loss]
    is the number 1, and looking it up raises a type error instead of
    giving [None]; so does [to_array] on a log in which [loss] is a number
    in one iteration and a scope in the next. *)
Theorem get_scoped_value_scalar_prefix_raises :
  d_var (exec (new_iteration ;; add_dynamic_value "loss" (VInt 1))%method Log_init)
  = [VDict [("_iteration", VInt 0); ("loss", VInt 1)]] /\
  get_scoped_value
    (exec (new_iteration ;; add_dynamic_value "loss" (VInt 1))%method Log_init)
    0 "loss.x" = Raise TypeError /\
  to_array
    (exec (new_iteration ;; add_dynamic_value "loss" (VInt 1) ;; new_iteration ;;
           add_dynamic_values (NamesStr "loss") [("x", VInt 2)])%method Log_init)
  = Raise TypeError.
Proof. repeat split; vm_compute; reflexivity. Qed.

(** C10: a dotted name whose whole path addresses an internal node of the
    tree of iteration [ti] is looked up to the dictionary at that node. *)
Theorem get_scoped_value_internal_node (self : Log) (ti : Z) (name : string)
    (tree : value) (sub : dict value) :
  py_index (d_var self) ti = Ok tree ->
  addresses tree (split "."%char name) (VDict sub) ->
  get_scoped_value self ti name = Ok (VDict sub).
Proof.
  intros Hidx Haddr. unfold get_scoped_value. rewrite Hidx. simpl.
  by apply scoped_walk_addresses.
Qed.

Lemma get_scoped_value_internal_node_witness :
  get_scoped_value
    (exec (new_iteration ;;
           add_dynamic_values (NamesStr "train.batch") [("loss", VInt 2)])%method Log_init)
    0 "train.batch" = Ok (VDict [("loss", VInt 2)]).
Proof.
  apply (get_scoped_value_internal_node _ 0 "train.batch"
           (VDict [("_iteration", VInt 0);
                   ("train", VDict [("batch", VDict [("loss", VInt 2)])])])).
  - reflexivity.
  - vm_compute. eapply addresses_below; [reflexivity|].
    eapply addresses_below; [reflexivity|]. apply addresses_here.
Defined.

(** ** The shadowed lookup *)

Lemma add_dynamic_value_ok (self : Log) (key : string) (val tt tt' : value) :
  py_index (d_var self) (t self) = Ok tt ->
  set_path (scopes self) key val tt = Ok tt' ->
  add_dynamic_value key val self
  = (Ok (), set_d_var self (py_store (d_var self) (t self) tt')).
Proof.
  intros Hidx Hset. unfold add_dynamic_value, bind, get, lift, modify.
  by rewrite Hidx, Hset.
Qed.

(** What [get_last_dynamic_value] reads in a tree that holds [key] at the
    top and below the scope [s], and has no scope [s']. *)
Lemma get_last_dynamic_value_shadow (self : Log) (tree sub : dict value)
    (key s : string) (outer inner : value) :
  py_index (d_var self) (t self) = Ok (VDict tree) ->
  dict_get tree key = Some outer ->
  dict_get tree s = Some (VDict sub) ->
  dict_get sub key = Some inner ->
  scopes self = [s] ->
  get_last_dynamic_value self key = Ok inner.
Proof.
  intros Hidx Hk Hs Hsub Hsc. unfold get_last_dynamic_value.
  rewrite Hidx, Hsc. simpl. unfold dict_mem. rewrite Hk, Hs. simpl.
  unfold dict_mem. by rewrite Hsub.
Qed.

Lemma get_last_dynamic_value_missing_scope (self : Log) (tree : dict value)
    (key s : string) (rest : list string) (outer : value) :
  py_index (d_var self) (t self) = Ok (VDict tree) ->
  dict_get tree key = Some outer ->
  dict_get tree s = None ->
  scopes self = s :: rest ->
  get_last_dynamic_value self key = Ok outer.
Proof.
  intros Hidx Hk Hs Hsc. unfold get_last_dynamic_value.
  rewrite Hidx, Hsc. simpl. unfold dict_mem. by rewrite Hk, Hs.
Qed.

(** C3: in an iteration with no scope active, whose tree has no scope
    [eval] and where [train], if present, is a scope: after [loss = 1] is
    recorded, [train] is pushed and [loss = 2] is recorded, the lookup of
    [loss] gives 2; after [train] is popped and [eval] is pushed, it
    gives 1. *)
Theorem shadow_law (self : Log) (tree : dict value) :
  scopes self = [] ->
  py_index (d_var self) (t self) = Ok (VDict tree) ->
  dict_get tree "eval" = None ->
  (forall v, dict_get tree "train" = Some v -> is_dict v = true) ->
  exists s1 s2 : Log,
    (add_dynamic_value "loss" (VInt 1) ;; push_scope "train" ;;
     add_dynamic_value "loss" (VInt 2))%method self = (Ok (), s1) /\
    scopes s1 = ["train"] /\
    get_last_dynamic_value s1 "loss" = Ok (VInt 2) /\
    (_ <- pop_scope ;; push_scope "eval")%method s1 = (Ok (), s2) /\
    scopes s2 = ["eval"] /\
    get_last_dynamic_value s2 "loss" = Ok (VInt 1).
Proof.
  intros Hsc Hidx Heval Htrain.
  unfold bind at 1.
  rewrite (add_dynamic_value_ok self "loss" (VInt 1) (VDict tree)
             (VDict (dict_set tree "loss" (VInt 1))));
    [|done|by rewrite Hsc].
  set (tree1 := dict_set tree "loss" (VInt 1)).
  unfold bind at 1, push_scope at 1, modify at 1. simpl d_var. simpl t.
  assert (Hidx1 : py_index (py_store (d_var self) (t self) (VDict tree1)) (t self)
                  = Ok (VDict tree1)) by (by eapply py_index_store).
  assert (exists tree2 sub,
            set_path ["train"] "loss" (VInt 2) (VDict tree1) = Ok (VDict tree2) /\
            dict_get tree2 "loss" = Some (VInt 1) /\
            dict_get tree2 "train" = Some (VDict sub) /\
            dict_get sub "loss" = Some (VInt 2) /\
            dict_get tree2 "eval" = None) as (tree2 & sub & Hset & Hl & Ht & Hs & He).
  { simpl. unfold dict_mem.
    assert (Hget : dict_get tree1 "train" = dict_get tree "train")
      by (by apply dict_get_set_ne).
    rewrite Hget. destruct (dict_get tree "train") as [v|] eqn:E; simpl.
    - specialize (Htrain v eq_refl). destruct v as [| | |d']; try done.
      rewrite Hget. simpl.
      exists (dict_set tree1 "train" (VDict (dict_set d' "loss" (VInt 2)))),
             (dict_set d' "loss" (VInt 2)).
      split; [done|].
      rewrite !dict_get_set_eq. rewrite !(dict_get_set_ne _ "train") by done.
      unfold tree1. rewrite dict_get_set_eq. by rewrite dict_get_set_ne.
    - rewrite dict_get_set_eq. simpl.
      exists (dict_set (dict_set tree1 "train" (VDict [])) "train"
                (VDict [("loss", VInt 2)])), [("loss", VInt 2)].
      split; [done|].
      rewrite !dict_get_set_eq. rewrite !(dict_get_set_ne _ "train") by done.
      unfold tree1. rewrite dict_get_set_eq. by rewrite dict_get_set_ne. }
  eexists. eexists.
  split.
  { erewrite add_dynamic_value_ok; [reflexivity| exact Hidx1 |].
    simpl. rewrite Hsc. exact Hset. }
  simpl. rewrite Hsc. simpl.
  split; [done|].
  split.
  { apply (get_last_dynamic_value_shadow _ tree2 sub "loss" "train" (VInt 1) (VInt 2));
      simpl; try done.
    eapply py_index_store. exact Hidx1. }
  split; [reflexivity|].
  split; [done|].
  apply (get_last_dynamic_value_missing_scope _ tree2 "loss" "eval" [] (VInt 1));
    simpl; try done.
  eapply py_index_store. exact Hidx1.
Qed.

Lemma shadow_law_witness :
  exists s1 s2 : Log,
    (add_dynamic_value "loss" (VInt 1) ;; push_scope "train" ;;
     add_dynamic_value "loss" (VInt 2))%method (exec new_iteration Log_init) = (Ok (), s1) /\
    scopes s1 = ["train"] /\
    get_last_dynamic_value s1 "loss" = Ok (VInt 2) /\
    (_ <- pop_scope ;; push_scope "eval")%method s1 = (Ok (), s2) /\
    scopes s2 = ["eval"] /\
    get_last_dynamic_value s2 "loss" = Ok (VInt 1).
Proof.
  apply (shadow_law (exec new_iteration Log_init) [("_iteration", VInt 0)]).
  - reflexivity.
  - reflexivity.
  - reflexivity.
  - intros v H. vm_compute in H. discriminate H.
Defined.

(** ** The iteration counter *)

Lemma keeps_ret {A : Type} (a : A) : keeps (ret a).
Proof. by intros self. Qed.

Lemma keeps_lift {A : Type} (r : res A) : keeps (lift r).
Proof. by intros self. Qed.

Lemma keeps_get : keeps get.
Proof. by intros self. Qed.

Lemma keeps_bind {A B : Type} (m : M A) (k : A -> M B) :
  keeps m -> (forall a, keeps (k a)) -> keeps (bind m k).
Proof.
  intros Hm Hk self. unfold bind. specialize (Hm self).
  destruct (m self) as [[a|e] self1]; simpl in *; [|done].
  destruct (Hk a self1) as [H1 H2]. destruct Hm as [H3 H4]. split; congruence.
Qed.

Lemma keeps_for_each {A : Type} (l : list A) (body : A -> M unit) :
  (forall x, keeps (body x)) -> keeps (for_each l body).
Proof.
  intros Hb. induction l as [|x r IH]; simpl.
  - apply keeps_ret.
  - apply keeps_bind; [apply Hb | intros _; exact IH].
Qed.

Lemma keeps_push_scope (name : string) : keeps (push_scope name).
Proof. by intros self. Qed.

Lemma keeps_push_scopes (names : names_arg) : keeps (push_scopes names).
Proof.
  destruct names; simpl.
  - apply keeps_ret.
  - apply keeps_bind; [apply keeps_for_each, keeps_push_scope | intros; apply keeps_ret].
  - apply keeps_bind; [apply keeps_for_each, keeps_push_scope | intros; apply keeps_ret].
Qed.

Lemma keeps_pop_scope : keeps pop_scope.
Proof.
  intros self. unfold pop_scope. destruct (list_pop (scopes self)) as [[r s]|]; done.
Qed.

Lemma keeps_pop_scopes (n : nat) : keeps (pop_scopes n).
Proof.
  induction n as [|n IH]; simpl.
  - apply keeps_ret.
  - apply keeps_bind; [apply keeps_pop_scope | intros _; exact IH].
Qed.

Lemma keeps_add_static_value (key : string) (val : value) :
  keeps (add_static_value key val).
Proof. by intros self. Qed.

Lemma keeps_add_dynamic_value (key : string) (val : value) :
  keeps (add_dynamic_value key val).
Proof.
  unfold add_dynamic_value.
  apply keeps_bind; [apply keeps_get | intros self0].
  apply keeps_bind; [apply keeps_lift | intros tt0].
  apply keeps_bind; [apply keeps_lift | intros tt1].
  intros self. unfold modify. simpl. split; [done|]. apply py_store_length.
Qed.

Lemma keeps_add_dynamic_values (scope_ : names_arg) (kwargs : dict value) :
  keeps (add_dynamic_values scope_ kwargs).
Proof.
  unfold add_dynamic_values.
  apply keeps_bind; [apply keeps_push_scopes | intros n].
  apply keeps_bind; [| intros _; apply keeps_pop_scopes].
  apply keeps_for_each. intros kv. apply keeps_add_dynamic_value.
Qed.

Lemma new_iteration_unfold (self : Log) :
  new_iteration self =
    let self2 := set_d_var (set_t self (t self + 1)) (d_var self ++ [VDict []]) in
    match add_dynamic_value ITERATION_KEY (VInt (t self + 1)) self2 with
    | (Ok _, self3) => (Ok (), set_scopes self3 [])
    | (Raise e, self3) => (Raise e, self3)
    end.
Proof. reflexivity. Qed.

Lemma new_iteration_steps (self : Log) :
  t (exec new_iteration self) = t self + 1 /\
  length (d_var (exec new_iteration self)) = S (length (d_var self)).
Proof.
  unfold exec. rewrite new_iteration_unfold. cbv zeta.
  set (self2 := set_d_var _ _).
  assert (H2 : t self2 = t self + 1 /\ length (d_var self2) = S (length (d_var self))).
  { unfold self2. simpl. split; [done|]. rewrite length_app. simpl. lia. }
  destruct (keeps_add_dynamic_value ITERATION_KEY (VInt (t self + 1)) self2) as [H3 H4].
  destruct (add_dynamic_value ITERATION_KEY (VInt (t self + 1)) self2) as [[u|e] self3];
    simpl in *; destruct H2; split; congruence.
Qed.

Lemma run_op_cases (o : record_op) : o = OpNewIteration \/ o <> OpNewIteration.
Proof. destruct o; (by left) || (by right). Qed.

Lemma run_op_keeps (o : record_op) (self : Log) :
  o <> OpNewIteration ->
  t (run_op o self) = t self /\ length (d_var (run_op o self)) = length (d_var self).
Proof.
  intros Hne. destruct o; unfold run_op, exec.
  - done.
  - apply (keeps_push_scope _ self).
  - apply (keeps_push_scopes _ self).
  - apply (keeps_pop_scope self).
  - apply (keeps_pop_scopes _ self).
  - apply (keeps_add_static_value _ _ self).
  - apply (keeps_for_each kwargs (fun kv => add_static_value (fst kv) (snd kv))).
    intros kv. apply keeps_add_static_value.
  - apply (keeps_add_dynamic_value _ _ self).
  - apply (keeps_add_dynamic_values _ _ self).
Qed.

(** C8: every recording operation, whether it returns or raises, takes a
    log with [len(d_var) = t + 1] to a log with [len(d_var) = t + 1];
    [new_iteration] adds one to [t] and every other operation leaves [t] as
    it is. *)
Theorem iterations_counted (self : Log) (o : record_op) :
  counted self ->
  counted (run_op o self) /\
  (o = OpNewIteration /\ t (run_op o self) = t self + 1 \/
   o <> OpNewIteration /\ t (run_op o self) = t self).
Proof.
  unfold counted. intros Hc.
  destruct (run_op_cases o) as [->|Hne].
  - destruct (new_iteration_steps self) as [H1 H2]. simpl.
    split; [lia | by left].
  - destruct (run_op_keeps o self Hne) as [H1 H2]. split; [lia | by right].
Qed.

Lemma iterations_counted_witness :
  counted (exec new_iteration Log_init) /\
  counted (run_op OpNewIteration (exec new_iteration Log_init)) /\
  (OpNewIteration = OpNewIteration /\
   t (run_op OpNewIteration (exec new_iteration Log_init))
   = t (exec new_iteration Log_init) + 1 \/
   OpNewIteration <> OpNewIteration /\
   t (run_op OpNewIteration (exec new_iteration Log_init))
   = t (exec new_iteration Log_init)).
Proof.
  split; [reflexivity|].
  apply (iterations_counted (exec new_iteration Log_init) OpNewIteration).
  reflexivity.
Defined.

(** Every log that the recording operations build from a new log is
    counted. *)
Lemma run_ops_counted (ops : list record_op) : counted (run_ops ops Log_init).
Proof.
  unfold run_ops. assert (H : counted Log_init) by reflexivity.
  revert H. generalize Log_init. induction ops as [|o r IH]; intros self H; simpl.
  - exact H.
  - apply IH.
    destruct (run_op_cases o) as [->|Hne]; unfold counted in *.
    + destruct (new_iteration_steps self) as [H1 H2]. simpl. lia.
    + destruct (run_op_keeps o self Hne) as [H1 H2]. lia.
Qed.

(** ** Column names *)

Lemma join_singleton (sep k : string) : join sep [k] = k.
Proof. reflexivity. Qed.

Lemma columns_of_value_leaf (tree : dict value) (k : string) (v : value)
    (scope : list string) :
  dict_get tree k = Some v ->
  is_dict v = false ->
  join "." (scope ++ [k]) ∈ columns_of_value (VDict tree) scope.
Proof.
  intros Hget Hleaf. simpl.
  induction tree as [|[k' v'] r IH]; simpl in *; [done|].
  destruct (String.eqb k' k) eqn:E.
  - apply String.eqb_eq in E. subst k'. injection Hget as ->.
    rewrite Hleaf. set_solver.
  - apply elem_of_union_r. by apply IH.
Qed.

Lemma columns_loop_mono (self : Log) (ts : list nat) (acc cols : gset string) :
  columns_loop self ts acc = Ok cols -> acc ⊆ cols.
Proof.
  revert acc. induction ts as [|ti rest IH]; intros acc; simpl.
  - by intros [= ->].
  - destruct (py_index (d_var self) (Z.of_nat ti)) as [tt0|]; simpl; [|done].
    destruct (_generate_columns_names_from_dict tt0 []) as [cc|]; simpl; [|done].
    intros H. apply IH in H. set_solver.
Qed.

Lemma columns_loop_covers (self : Log) (ts : list nat) (acc cols : gset string)
    (ti : nat) (tree : dict value) :
  columns_loop self ts acc = Ok cols ->
  ti ∈ ts ->
  d_var self !! ti = Some (VDict tree) ->
  columns_of_value (VDict tree) [] ⊆ cols.
Proof.
  revert acc. induction ts as [|ti' rest IH]; intros acc; simpl.
  - intros _ H. inversion H.
  - intros Hloop Hin Hlook.
    destruct (py_index (d_var self) (Z.of_nat ti')) as [tt0|] eqn:E; simpl in *; [|done].
    destruct (_generate_columns_names_from_dict tt0 []) as [cc|] eqn:F; simpl in *; [|done].
    apply elem_of_cons in Hin as [->|Hin].
    + rewrite py_index_nat in E. unfold nth_item in E. rewrite Hlook in E.
      injection E as <-. simpl in F. injection F as <-.
      apply columns_loop_mono in Hloop. set_solver.
    + by eapply IH.
Qed.

Lemma count_occ_NoDup_1 (l : list string) (x : string) :
  NoDup l -> x ∈ l -> count_occ string_dec l x = 1%nat.
Proof.
  intros Hnd Hin.
  apply NoDup_count_occ'; [by apply NoDup_ListNoDup | by apply list_elem_of_In].
Qed.

Lemma startswith_app (p s : string) : startswith p (p ++ s) = true.
Proof.
  induction p as [|c p IH]; simpl; [done|]. by rewrite Ascii.eqb_refl, IH.
Qed.

Lemma count_occ_static_names (keys : list string) (x : string) :
  startswith "_s_" x = false ->
  count_occ string_dec (map (String.append "_s_") keys) x = 0%nat.
Proof.
  intros Hx. apply count_occ_not_In. intros Hin.
  apply in_map_iff in Hin as (k & <- & _).
  by rewrite startswith_app in Hx.
Qed.

(** ** The extended array *)

Lemma res_map_Forall2 {A B : Type} (f : A -> res B) (l : list A) (ys : list B) :
  res_map f l = Ok ys <-> Forall2 (fun x y => f x = Ok y) l ys.
Proof.
  revert ys. induction l as [|x r IH]; intros ys; simpl.
  - split; [intros [= <-]; constructor | intros H; by inversion H].
  - destruct (f x) as [y|e] eqn:E; simpl.
    + destruct (res_map f r) as [ys'|e] eqn:F; simpl.
      * split.
        -- intros [= <-]. constructor; [done | by apply IH].
        -- intros H. inversion H as [|? y0 ? ys0 H1 H2]; subst.
           apply IH in H2. congruence.
      * split; [done|]. intros H. inversion H as [|? y0 ? ys0 H1 H2]; subst.
        apply IH in H2. congruence.
    + split; [done|]. intros H. inversion H; subst. congruence.
Qed.

Lemma to_extended_array_inv (self : Log) (arr : list (list value)) :
  to_extended_array self = Ok arr ->
  exists names rows,
    _generate_columns_names self = Ok names /\
    arr = map VStr (extended_names self names) :: rows /\
    Forall2 (fun ti row =>
               Forall2 (fun l c => extended_cell self ti l = Ok c)
                       (extended_names self names) row)
            (seq 0 (length (d_var self))) rows.
Proof.
  unfold to_extended_array.
  destruct (_generate_columns_names self) as [names|]; simpl; [|done].
  destruct (res_map _ _) as [rows|] eqn:E; simpl; [|done].
  intros [= <-]. exists names, rows. split; [done|]. split; [done|].
  apply res_map_Forall2 in E. unfold range in E. rewrite Nat2Z.id in E.
  eapply Forall2_impl; [exact E|]. intros ti row H. simpl in H.
  by apply res_map_Forall2.
Qed.

(** C9: when [to_extended_array] returns on a log in which some iteration
    up to [t] has [_iteration] as a top-level leaf, the first row of the
    array it returns is the header [_iteration], then the generated column
    names, then the static names; [_iteration] is once among the generated
    column names, and so the header holds it exactly twice. *)
Theorem extended_header_iteration_twice (self : Log) (arr : list (list value))
    (ti : nat) (tree : dict value) (v : value) :
  to_extended_array self = Ok arr ->
  Z.of_nat ti <= t self ->
  d_var self !! ti = Some (VDict tree) ->
  dict_get tree "_iteration" = Some v ->
  is_dict v = false ->
  exists names rows,
    _generate_columns_names self = Ok names /\
    arr = map VStr ("_iteration"
                    :: names ++ map (String.append "_s_") (dict_keys (s_var self)))
          :: rows /\
    count_occ string_dec names "_iteration" = 1%nat /\
    count_occ string_dec
      ("_iteration" :: names ++ map (String.append "_s_") (dict_keys (s_var self)))
      "_iteration" = 2%nat.
Proof.
  intros Harr Hti Hlook Hget Hleaf.
  destruct (to_extended_array_inv self arr Harr) as (names & rows & Hnames & -> & _).
  exists names, rows. split; [done|]. split; [done|].
  unfold _generate_columns_names in Hnames.
  destruct (columns_loop self (range (t self + 1)) ∅) as [cols|] eqn:Hloop;
    simpl in Hnames; [|done].
  injection Hnames as <-.
  assert (Hcnt : count_occ string_dec (elements cols) "_iteration" = 1%nat).
  { apply count_occ_NoDup_1; [apply NoDup_elements|].
    apply elem_of_elements.
    eapply (columns_loop_covers self _ _ _ ti tree Hloop); [|done|].
    - unfold range. apply elem_of_seq. lia.
    - by apply (columns_of_value_leaf tree "_iteration" v []). }
  split; [done|].
  simpl. rewrite count_occ_app, Hcnt. by rewrite count_occ_static_names.
Qed.

Lemma extended_header_iteration_twice_witness :
  to_extended_array
    (exec (add_static_value "lr" (VInt 3) ;; new_iteration ;;
           add_dynamic_value "x" (VInt 1))%method Log_init)
  = Ok [[VStr "_iteration"; VStr "_iteration"; VStr "x"; VStr "_s_lr"];
        [VInt 0; VInt 0; VInt 1; VInt 3]] /\
  exists names rows,
    _generate_columns_names
      (exec (add_static_value "lr" (VInt 3) ;; new_iteration ;;
             add_dynamic_value "x" (VInt 1))%method Log_init) = Ok names /\
    [[VStr "_iteration"; VStr "_iteration"; VStr "x"; VStr "_s_lr"];
     [VInt 0; VInt 0; VInt 1; VInt 3]]
    = map VStr ("_iteration"
                :: names
                   ++ map (String.append "_s_")
                        (dict_keys
                           (s_var (exec (add_static_value "lr" (VInt 3) ;;
                                         new_iteration ;;
                                         add_dynamic_value "x" (VInt 1))%method
                                        Log_init))))
      :: rows /\
    count_occ string_dec names "_iteration" = 1%nat /\
    count_occ string_dec
      ("_iteration"
       :: names
          ++ map (String.append "_s_")
               (dict_keys
                  (s_var (exec (add_static_value "lr" (VInt 3) ;; new_iteration ;;
                                add_dynamic_value "x" (VInt 1))%method Log_init))))
      "_iteration" = 2%nat.
Proof.
  split; [vm_compute; reflexivity|].
  apply (extended_header_iteration_twice
           (exec (add_static_value "lr" (VInt 3) ;; new_iteration ;;
                  add_dynamic_value "x" (VInt 1))%method Log_init)
           [[VStr "_iteration"; VStr "_iteration"; VStr "x"; VStr "_s_lr"];
            [VInt 0; VInt 0; VInt 1; VInt 3]]
           0 [("_iteration", VInt 0); ("x", VInt 1)] (VInt 0)).
  - vm_compute. reflexivity.
  - vm_compute. discriminate.
  - reflexivity.
  - reflexivity.
  - reflexivity.
Defined.

Lemma str_drop_app (p s : string) : str_drop (String.length p) (p ++ s) = s.
Proof. induction p as [|c p IH]; simpl; [by destruct s | exact IH]. Qed.

Lemma extended_cell_static (self : Log) (ti : nat) (k : string) (c : value) :
  extended_cell self ti ("_s_" ++ k) = Ok c <-> dict_get (s_var self) k = Some c.
Proof.
  unfold extended_cell. rewrite startswith_app.
  change 3%nat with (String.length "_s_"). rewrite str_drop_app. simpl.
  destruct (dict_get (s_var self) k); split; congruence.
Qed.

(** What the cells of the extended array are computed from: when
    [to_extended_array] returns, the array is the header followed by one row
    per iteration; the cell of a name is chosen by the name alone, first by
    the prefix [_s_] (the static value of the rest of the name), then by
    equality with [_iteration] (the index of the row), otherwise by
    [get_scoped_value].  Every static key has a column after the dynamic
    ones that holds its value in every row. *)
Lemma extended_array_cells (self : Log) (arr : list (list value)) :
  to_extended_array self = Ok arr ->
  exists names rows,
    _generate_columns_names self = Ok names /\
    arr = map VStr (extended_names self names) :: rows /\
    length rows = length (d_var self) /\
    (forall (ti : nat) row j l,
       rows !! ti = Some row ->
       extended_names self names !! j = Some l ->
       exists c, row !! j = Some c /\
         (forall k, l = "_s_" ++ k -> dict_get (s_var self) k = Some c) /\
         (l = "_iteration" -> c = VInt (Z.of_nat ti)) /\
         (startswith "_s_" l = false -> l <> "_iteration" ->
          get_scoped_value self (Z.of_nat ti) l = Ok c)) /\
    (forall k, k ∈ dict_keys (s_var self) ->
       exists j v,
         (length names < j)%nat /\
         extended_names self names !! j = Some ("_s_" ++ k) /\
         dict_get (s_var self) k = Some v /\
         forall row, row ∈ rows -> row !! j = Some v).
Proof.
  intros Harr. apply to_extended_array_inv in Harr as (names & rows & Hn & -> & Hrows).
  exists names, rows. split; [done|]. split; [done|].
  assert (Hlen : length rows = length (d_var self)).
  { apply Forall2_length in Hrows. by rewrite length_seq in Hrows. }
  split; [done|].
  assert (Hcell : forall (ti : nat) row j l,
            rows !! ti = Some row -> extended_names self names !! j = Some l ->
            exists c, row !! j = Some c /\ extended_cell self ti l = Ok c).
  { intros ti row j l Hrow Hl.
    destruct (Forall2_lookup_r _ _ _ _ _ Hrows Hrow) as (ti' & Hti & Hcells).
    apply lookup_seq in Hti as [-> _]. simpl in Hcells.
    destruct (Forall2_lookup_l _ _ _ _ _ Hcells Hl) as (c & Hc & Hok).
    by exists c. }
  split.
  - intros ti row j l Hrow Hl.
    destruct (Hcell ti row j l Hrow Hl) as (c & Hc & Hok).
    exists c. split; [done|]. split; [|split].
    + intros k ->. by apply extended_cell_static in Hok.
    + intros ->. unfold extended_cell in Hok. simpl in Hok. congruence.
    + intros Hs Hne. unfold extended_cell in Hok. rewrite Hs in Hok.
      apply String.eqb_neq in Hne. by rewrite Hne in Hok.
  - intros k Hk.
    apply list_elem_of_lookup in Hk as [i Hi].
    set (j := (S (length names) + i)%nat).
    assert (Hj : extended_names self names !! j = Some ("_s_" ++ k)).
    { unfold extended_names, j.
      rewrite lookup_app_r by (simpl; lia).
      replace (S (length names) + i - length ("_iteration" :: names))%nat with i
        by (simpl; lia).
      by rewrite list_lookup_fmap, Hi. }
    assert (Hv : is_Some (dict_get (s_var self) k)).
    { apply dict_get_keys. apply list_elem_of_lookup. by exists i. }
    destruct Hv as [v Hv]. exists j, v.
    split; [unfold j; lia|]. split; [done|]. split; [done|].
    intros row Hrow. apply list_elem_of_lookup in Hrow as [ti Hrow].
    destruct (Hcell ti row j _ Hrow Hj) as (c & Hc & Hok).
    apply extended_cell_static in Hok. congruence.
Qed.

Lemma extended_array_cells_witness :
  to_extended_array
    (exec (add_static_value "lr" (VInt 1) ;; new_iteration ;; new_iteration ;;
           new_iteration)%method Log_init)
  = Ok [[VStr "_iteration"; VStr "_iteration"; VStr "_s_lr"];
        [VInt 0; VInt 0; VInt 1]; [VInt 1; VInt 1; VInt 1]; [VInt 2; VInt 2; VInt 1]] /\
  exists names rows,
    _generate_columns_names
      (exec (add_static_value "lr" (VInt 1) ;; new_iteration ;; new_iteration ;;
             new_iteration)%method Log_init) = Ok names /\
    [[VStr "_iteration"; VStr "_iteration"; VStr "_s_lr"];
     [VInt 0; VInt 0; VInt 1]; [VInt 1; VInt 1; VInt 1]; [VInt 2; VInt 2; VInt 1]]
    = map VStr (extended_names
                  (exec (add_static_value "lr" (VInt 1) ;; new_iteration ;;
                         new_iteration ;; new_iteration)%method Log_init) names) :: rows.
Proof.
  split; [vm_compute; reflexivity|].
  destruct (extended_array_cells
              (exec (add_static_value "lr" (VInt 1) ;; new_iteration ;; new_iteration ;;
                     new_iteration)%method Log_init)
              [[VStr "_iteration"; VStr "_iteration"; VStr "_s_lr"];
               [VInt 0; VInt 0; VInt 1]; [VInt 1; VInt 1; VInt 1];
               [VInt 2; VInt 2; VInt 1]])
    as (names & rows & Hn & Harr & _).
  - vm_compute. reflexivity.
  - exists names, rows. split; [exact Hn | exact Harr].
Defined.

(** C6 on the code: with the static key [x] and the dynamic value
    [_s_x = 1], the header holds [_s_x] twice, and the cell of the dynamic
    column [_s_x] is the static value 7, not the 1 that the iteration tree
    holds and that [get_scoped_value] and [to_array] give; without the
    static key, [to_extended_array] raises a key error.  The test of the
    prefix comes before the lookup in the tree. *)
Lemma extended_array_dynamic_prefix_collides :
  _generate_columns_names
    (exec (add_static_value "x" (VInt 7) ;; new_iteration ;;
           add_dynamic_value "_s_x" (VInt 1))%method Log_init)
  = Ok ["_s_x"; "_iteration"] /\
  get_scoped_value
    (exec (add_static_value "x" (VInt 7) ;; new_iteration ;;
           add_dynamic_value "_s_x" (VInt 1))%method Log_init) 0 "_s_x"
  = Ok (VInt 1) /\
  to_extended_array
    (exec (add_static_value "x" (VInt 7) ;; new_iteration ;;
           add_dynamic_value "_s_x" (VInt 1))%method Log_init)
  = Ok [[VStr "_iteration"; VStr "_s_x"; VStr "_iteration"; VStr "_s_x"];
        [VInt 0; VInt 7; VInt 0; VInt 7]] /\
  to_array
    (exec (add_static_value "x" (VInt 7) ;; new_iteration ;;
           add_dynamic_value "_s_x" (VInt 1))%method Log_init)
  = Ok [[VStr "_s_x"; VStr "_iteration"]; [VInt 1; VInt 0]] /\
  to_extended_array
    (exec (new_iteration ;; add_dynamic_value "_s_x" (VInt 1))%method Log_init)
  = Raise KeyError.
Proof. repeat split; vm_compute; reflexivity. Qed.

(** ** Merging *)

Lemma index_loop_spec (hs : list string) (j : nat) (index : dict nat)
    (all_columns : dict Z) :
  exists index' all_columns',
    index_loop (map VStr hs) j index all_columns = Ok (index', all_columns') /\
    (forall n, n ∉ hs -> dict_get index' n = dict_get index n) /\
    (forall n, n ∈ hs ->
       exists q, hs !! q = Some n /\ dict_get index' n = Some (j + q)%nat) /\
    (forall n, n ∈ dict_keys all_columns' <-> n ∈ dict_keys all_columns \/ n ∈ hs).
Proof.
  revert j index all_columns.
  induction hs as [|h r IH]; intros j index all_columns; simpl.
  - exists index, all_columns. split; [done|]. split; [done|]. split.
    + intros n H. inversion H.
    + intros n. split; [by left | intros [?|H]; [done | inversion H]].
  - destruct (IH (S j) (dict_set index h j) (dict_set all_columns h 1))
      as (index' & all' & Hloop & Hout & Hin & Hkeys).
    exists index', all'. split; [done|]. split; [|split].
    + intros n Hn. apply not_elem_of_cons in Hn as [Hne Hn].
      rewrite (Hout n Hn). by apply dict_get_set_ne.
    + intros n Hn. destruct (decide (n ∈ r)) as [Hr|Hr].
      * destruct (Hin n Hr) as (q & Hq & Hget). exists (S q). split; [done|].
        rewrite Hget. f_equal. lia.
      * apply elem_of_cons in Hn as [->|Hn]; [|done].
        exists 0%nat. split; [done|]. rewrite (Hout h Hr), dict_get_set_eq.
        f_equal. lia.
    + intros n. rewrite Hkeys, dict_keys_set, elem_of_cons. tauto.
Qed.

Lemma line_loop_spec (names : list string) (k i : nat) (filename : string)
    (index : dict nat) (line new_line : list value) :
  (forall cn idx, dict_get index cn = Some idx -> (idx < length line)%nat) ->
  (k + length names <= length new_line)%nat ->
  exists out,
    line_loop names k i filename index line new_line = Ok out /\
    length out = length new_line /\
    (forall p, (p < k)%nat -> out !! p = new_line !! p) /\
    (forall q cn, names !! q = Some cn ->
       new_line !! (k + q)%nat = Some VNone ->
       out !! (k + q)%nat = Some (merged_cell i filename index line cn)).
Proof.
  intros Hidx. revert k new_line.
  induction names as [|cn r IH]; intros k new_line Hlen; simpl in *.
  - exists new_line. split; [done|]. split; [done|]. split; [done|].
    intros q cn' H. inversion H.
  - set (written :=
           if String.eqb cn "_log_file" then Some (VStr filename)
           else if String.eqb cn "_log_idx" then Some (VInt (Z.of_nat i))
           else match dict_get index cn with
                | Some idx => line !! idx
                | None => None
                end).
    assert (exists nl1,
              (if String.eqb cn "_log_file"
               then Ok (<[k := VStr filename]> new_line)
               else if String.eqb cn "_log_idx"
               then Ok (<[k := VInt (Z.of_nat i)]> new_line)
               else match dict_get index cn with
                    | Some idx =>
                        let? x := nth_item line idx in Ok (<[k := x]> new_line)
                    | None => Ok new_line
                    end) = Ok nl1 /\
              length nl1 = length new_line /\
              (forall p, p <> k -> nl1 !! p = new_line !! p) /\
              (new_line !! k = Some VNone ->
               nl1 !! k = Some (merged_cell i filename index line cn)))
      as (nl1 & -> & Hl1 & Hother & Hk).
    { unfold merged_cell.
      destruct (String.eqb cn "_log_file").
      { eexists. split; [done|]. rewrite length_insert. split; [done|].
        split; [intros p Hp; by rewrite list_lookup_insert_ne|].
        intros _. rewrite list_lookup_insert_eq; [done | lia]. }
      destruct (String.eqb cn "_log_idx").
      { eexists. split; [done|]. rewrite length_insert. split; [done|].
        split; [intros p Hp; by rewrite list_lookup_insert_ne|].
        intros _. rewrite list_lookup_insert_eq; [done | lia]. }
      destruct (dict_get index cn) as [idx|] eqn:E.
      - destruct (lookup_lt_is_Some_2 line idx (Hidx _ _ E)) as [x Hx].
        unfold nth_item. rewrite Hx. simpl.
        eexists. split; [done|]. rewrite length_insert. split; [done|].
        split; [intros p Hp; by rewrite list_lookup_insert_ne|].
        intros _. rewrite list_lookup_insert_eq; [done | lia].
      - exists new_line. done. }
    simpl.
    destruct (IH (S k) nl1) as (out & Hloop & Hlo & Hbefore & Hcells); [lia|].
    exists out. split; [done|]. split; [congruence|]. split.
    + intros p Hp. rewrite Hbefore by lia. apply Hother. lia.
    + intros q cn' Hq Hnone. destruct q as [|q]; simpl in Hq.
      * injection Hq as <-. rewrite Nat.add_0_r in *.
        rewrite Hbefore by lia. by apply Hk.
      * replace (k + S q)%nat with (S k + q)%nat in * by lia.
        apply Hcells; [done|]. rewrite Hother by lia. done.
Qed.

Lemma merged_line_spec (all_names : list string) (i : nat) (filename : string)
    (index : dict nat) (header : list value) (rows : list (list value))
    (rt : nat) (line : list value) :
  rows !! rt = Some line ->
  (forall cn idx, dict_get index cn = Some idx -> (idx < length line)%nat) ->
  exists out,
    merged_line all_names i filename index (header :: rows) rt = Ok out /\
    length out = length all_names /\
    (forall q cn, all_names !! q = Some cn ->
       out !! q = Some (merged_cell i filename index line cn)).
Proof.
  intros Hline Hidx. unfold merged_line, nth_item.
  rewrite Nat.add_1_r. simpl. rewrite Hline. simpl.
  destruct (line_loop_spec all_names 0 i filename index line
              (replicate (length all_names) VNone) Hidx)
    as (out & Hloop & Hlen & _ & Hcells).
  { rewrite length_replicate. simpl. lia. }
  exists out. split; [done|]. split; [by rewrite Hlen, length_replicate|].
  intros q cn Hq. apply (Hcells q cn Hq). simpl.
  apply lookup_replicate_2. by eapply lookup_lt_Some.
Qed.

Lemma merged_rows_spec (all_names filenames : list string)
    (arrays : list (list (list value))) (indexes : list (dict nat)) (i : nat)
    (header : list value) (rows : list (list value)) (filename : string)
    (index : dict nat) :
  arrays !! i = Some (header :: rows) ->
  filenames !! i = Some filename ->
  indexes !! i = Some index ->
  (forall line cn idx, line ∈ rows -> dict_get index cn = Some idx ->
     (idx < length line)%nat) ->
  exists out,
    merged_rows all_names filenames arrays indexes i = Ok out /\
    Forall2 (fun line new_line =>
               length new_line = length all_names /\
               forall q cn, all_names !! q = Some cn ->
                 new_line !! q = Some (merged_cell i filename index line cn))
            rows out.
Proof.
  intros Harr Hfile Hindex Hidx. unfold merged_rows, nth_item.
  rewrite Harr, Hfile, Hindex. simpl.
  unfold range.
  replace (Z.to_nat (Z.of_nat (S (length rows)) - 1)) with (length rows) by lia.
  assert (Hall : forall rt line, rows !! rt = Some line ->
            exists out,
              merged_line all_names i filename index (header :: rows) rt = Ok out /\
              length out = length all_names /\
              (forall q cn, all_names !! q = Some cn ->
                 out !! q = Some (merged_cell i filename index line cn))).
  { intros rt line Hline. apply merged_line_spec; [done|].
    intros cn idx. apply Hidx. apply list_elem_of_lookup. by exists rt. }
  clear Harr Hidx.
  assert (Hgen : forall n done_rows todo,
            rows = (done_rows ++ todo)%list -> n = length done_rows ->
            exists out,
              res_map (merged_line all_names i filename index (header :: rows))
                      (seq n (length todo)) = Ok out /\
              Forall2 (fun line new_line =>
                         length new_line = length all_names /\
                         forall q cn, all_names !! q = Some cn ->
                           new_line !! q = Some (merged_cell i filename index line cn))
                      todo out).
  { intros n done_rows todo. revert n done_rows.
    induction todo as [|line todo IH]; intros n done_rows Hrows Hn; simpl.
    - exists []. split; [done | constructor].
    - destruct (Hall n line) as (o & Ho & Hlo & Hco).
      { rewrite Hrows, Hn. rewrite lookup_app_r by lia.
        by rewrite Nat.sub_diag. }
      rewrite Ho. simpl.
      destruct (IH (S n) (done_rows ++ [line])%list) as (os & Hos & Hf).
      { by rewrite <- app_assoc. }
      { rewrite length_app. simpl. lia. }
      rewrite Hos. simpl. exists (o :: os). split; [done|].
      constructor; [done | exact Hf]. }
  destruct (Hgen 0%nat [] rows eq_refl eq_refl) as (out & Hout & Hf).
  by exists out.
Qed.

Lemma indexes_header_lookup (hs : list string) (index : dict nat) (n : string)
    (idx : nat) :
  indexes_header hs index -> dict_get index n = Some idx -> hs !! idx = Some n.
Proof.
  intros [Hout Hin] Hget. destruct (decide (n ∈ hs)) as [H|H].
  - destruct (Hin n H) as (q & Hq & Hg). congruence.
  - rewrite (Hout n H) in Hget. done.
Qed.

(** The cells of the merged rows of one log. *)
Lemma merged_log_cells (self : Log) (names : list string)
    (rows out : list (list value)) (index : dict nat) (i : nat)
    (filename : string) (all_names : list string) :
  Forall2 (fun ti row =>
             Forall2 (fun l c => extended_cell self ti l = Ok c)
                     (extended_names self names) row)
          (seq 0 (length (d_var self))) rows ->
  indexes_header (extended_names self names) index ->
  Forall2 (fun line new_line =>
             length new_line = length all_names /\
             forall q cn, all_names !! q = Some cn ->
               new_line !! q = Some (merged_cell i filename index line cn))
          rows out ->
  length out = length (d_var self) /\
  forall (r : nat) new_line, out !! r = Some new_line ->
    length new_line = length all_names /\
    forall j n, all_names !! j = Some n ->
      (n = "_log_idx" -> new_line !! j = Some (VInt (Z.of_nat i))) /\
      (n = "_log_file" -> new_line !! j = Some (VStr filename)) /\
      (n = "_iteration" -> new_line !! j = Some (VInt (Z.of_nat r))) /\
      (n ∈ extended_names self names -> startswith "_s_" n = false ->
       n <> "_iteration" -> n <> "_log_idx" -> n <> "_log_file" ->
       exists c, get_scoped_value self (Z.of_nat r) n = Ok c /\
                 new_line !! j = Some c) /\
      (n ∉ extended_names self names -> n <> "_log_idx" -> n <> "_log_file" ->
       new_line !! j = Some VNone).
Proof.
  intros Hrows Hindex Hout. split.
  { apply Forall2_length in Hrows, Hout. rewrite length_seq in Hrows. congruence. }
  intros r new_line Hnl.
  destruct (Forall2_lookup_r _ _ _ _ _ Hout Hnl) as (line & Hline & Hlen & Hcells).
  destruct (Forall2_lookup_r _ _ _ _ _ Hrows Hline) as (ti & Hti & Hext).
  apply lookup_seq in Hti as [-> _]. simpl in Hext.
  split; [done|]. intros j n Hn. rewrite (Hcells j n Hn).
  assert (Hhere : forall idx, dict_get index n = Some idx ->
            exists c, line !! idx = Some c /\ extended_cell self r n = Ok c).
  { intros idx Hidx. apply (indexes_header_lookup _ _ _ _ Hindex) in Hidx.
    destruct (Forall2_lookup_l _ _ _ _ _ Hext Hidx) as (c & Hc & Hok). by exists c. }
  unfold merged_cell. split; [|split; [|split; [|split]]].
  - by intros ->.
  - by intros ->.
  - intros ->. simpl.
    destruct Hindex as [_ Hin]. destruct (Hin "_iteration") as (q & Hq & Hget).
    { unfold extended_names. simpl. apply elem_of_cons. by left. }
    destruct (Hhere q Hget) as (c & Hc & Hok). rewrite Hget, Hc. simpl.
    unfold extended_cell in Hok. simpl in Hok. congruence.
  - intros Hin Hs Hit Hidx Hfile.
    apply String.eqb_neq in Hidx, Hfile. rewrite Hidx, Hfile.
    destruct Hindex as [_ Hcov]. destruct (Hcov n Hin) as (q & Hq & Hget).
    destruct (Hhere q Hget) as (c & Hc & Hok). rewrite Hget, Hc. simpl.
    exists c. split; [|done].
    unfold extended_cell in Hok. rewrite Hs in Hok.
    apply String.eqb_neq in Hit. by rewrite Hit in Hok.
  - intros Hnin Hidx Hfile.
    apply String.eqb_neq in Hidx, Hfile. rewrite Hidx, Hfile.
    destruct Hindex as [Hmiss _]. by rewrite (Hmiss n Hnin).
Qed.

Lemma has_column_names (hs : list string) (rows : list (list value)) (n : string) :
  has_column (map VStr hs :: rows) n <-> n ∈ hs.
Proof.
  unfold has_column. simpl. split.
  - intros (header & [= <-] & Hin).
    apply list_elem_of_fmap in Hin as (m & [= ->] & Hm). done.
  - intros Hin. eexists. split; [done|]. apply list_elem_of_fmap. by exists n.
Qed.

(** C7: for two logs whose extended arrays exist, the first with a column
    [x] and no column [y], the second with a column [y] and no column [x],
    the merge returns a header that holds [_log_idx], [_log_file],
    [_iteration], [x] and [y], and one row per iteration of the first log
    followed by one row per iteration of the second, in the order of the
    iterations and with no header among them: row [r] of the first log
    holds 0 under [_log_idx], its file name under [_log_file], [r] under
    [_iteration], the value of [x] in iteration [r] under [x] and [None]
    under [y]; row [r] of the second log holds 1, its file name, [r], [None]
    under [x] and the value of [y] in iteration [r] under [y]. *)
Theorem merge_union (A B : Log) (fa fb : string) (arrA arrB : list (list value)) :
  to_extended_array A = Ok arrA ->
  to_extended_array B = Ok arrB ->
  has_column arrA "x" -> ~ has_column arrA "y" ->
  has_column arrB "y" -> ~ has_column arrB "x" ->
  exists all_names retour,
    logs_to_dataframe [(fa, A); (fb, B)] = Ok (all_names, retour) /\
    Forall (fun n => n ∈ all_names) ["_log_idx"; "_log_file"; "_iteration"; "x"; "y"] /\
    length retour = (length (d_var A) + length (d_var B))%nat /\
    (forall (r : nat) row, (r < length (d_var A))%nat -> retour !! r = Some row ->
       length row = length all_names /\
       forall j n, all_names !! j = Some n ->
         (n = "_log_idx" -> row !! j = Some (VInt 0)) /\
         (n = "_log_file" -> row !! j = Some (VStr fa)) /\
         (n = "_iteration" -> row !! j = Some (VInt (Z.of_nat r))) /\
         (n = "x" -> exists c, get_scoped_value A (Z.of_nat r) "x" = Ok c /\
                               row !! j = Some c) /\
         (n = "y" -> row !! j = Some VNone)) /\
    (forall (r : nat) row, (r < length (d_var B))%nat ->
       retour !! (length (d_var A) + r)%nat = Some row ->
       length row = length all_names /\
       forall j n, all_names !! j = Some n ->
         (n = "_log_idx" -> row !! j = Some (VInt 1)) /\
         (n = "_log_file" -> row !! j = Some (VStr fb)) /\
         (n = "_iteration" -> row !! j = Some (VInt (Z.of_nat r))) /\
         (n = "x" -> row !! j = Some VNone) /\
         (n = "y" -> exists c, get_scoped_value B (Z.of_nat r) "y" = Ok c /\
                               row !! j = Some c)).
Proof.
  intros HA HB HAx HAy HBy HBx.
  destruct (to_extended_array_inv A arrA HA) as (namesA & rowsA & _ & -> & HrowsA).
  destruct (to_extended_array_inv B arrB HB) as (namesB & rowsB & _ & -> & HrowsB).
  rewrite has_column_names in HAx, HAy, HBy, HBx.
  assert (HitA : "_iteration" ∈ extended_names A namesA)
    by (unfold extended_names; simpl; apply elem_of_cons; by left).
  remember (extended_names A namesA) as hA eqn:EhA.
  remember (extended_names B namesB) as hB eqn:EhB.
  unfold logs_to_dataframe. simpl. rewrite HA, HB. simpl.
  destruct (index_loop_spec hA 0 [] []) as (idxA & all1 & -> & HoutA & HinA & Hk1).
  simpl.
  destruct (index_loop_spec hB 0 [] all1) as (idxB & all2 & -> & HoutB & HinB & Hk2).
  simpl.
  assert (HiA : indexes_header hA idxA) by (split; [exact HoutA | exact HinA]).
  assert (HiB : indexes_header hB idxB) by (split; [exact HoutB | exact HinB]).
  set (all_names := "_log_idx" :: "_log_file" :: dict_keys all2).
  assert (Hkeys : forall n, n ∈ hA \/ n ∈ hB -> n ∈ all_names).
  { intros n Hn. unfold all_names. do 2 apply list_elem_of_further.
    apply Hk2. rewrite Hk1. tauto. }
  clear HoutA HinA HoutB HinB Hk1 Hk2.
  rewrite EhA in HrowsA, HiA, HAx, HAy. rewrite EhB in HrowsB, HiB, HBx, HBy.
  assert (Hwidth : forall (self : Log) names rows index,
            Forall2 (fun ti row =>
                       Forall2 (fun l c => extended_cell self ti l = Ok c)
                               (extended_names self names) row)
                    (seq 0 (length (d_var self))) rows ->
            indexes_header (extended_names self names) index ->
            forall line cn idx, line ∈ rows -> dict_get index cn = Some idx ->
              (idx < length line)%nat).
  { intros self names rows index Hrows Hi line cn idx Hline Hget.
    apply list_elem_of_lookup in Hline as [rt Hline].
    destruct (Forall2_lookup_r _ _ _ _ _ Hrows Hline) as (ti & _ & Hext).
    apply Forall2_length in Hext. rewrite <- Hext.
    apply (indexes_header_lookup _ _ _ _ Hi) in Hget. by eapply lookup_lt_Some. }
  destruct (merged_rows_spec all_names [fa; fb]
              [map VStr hA :: rowsA; map VStr hB :: rowsB] [idxA; idxB] 0
              (map VStr hA) rowsA fa idxA eq_refl eq_refl eq_refl
              (Hwidth A namesA rowsA idxA HrowsA HiA)) as (outA & HmA & HfA).
  destruct (merged_rows_spec all_names [fa; fb]
              [map VStr hA :: rowsA; map VStr hB :: rowsB] [idxA; idxB] 1
              (map VStr hB) rowsB fb idxB eq_refl eq_refl eq_refl
              (Hwidth B namesB rowsB idxB HrowsB HiB)) as (outB & HmB & HfB).
  unfold range. simpl. fold all_names. rewrite HmA, HmB. simpl.
  destruct (merged_log_cells A namesA rowsA outA idxA 0 fa all_names HrowsA HiA HfA)
    as [HlenA HcA].
  destruct (merged_log_cells B namesB rowsB outB idxB 1 fb all_names HrowsB HiB HfB)
    as [HlenB HcB].
  exists all_names, (outA ++ (outB ++ []))%list. split; [done|].
  rewrite app_nil_r.
  split.
  { rewrite !Forall_cons. split; [|split; [|split; [|split; [|split]]]].
    - unfold all_names. apply elem_of_cons. by left.
    - unfold all_names. apply list_elem_of_further, elem_of_cons. by left.
    - apply Hkeys. by left.
    - apply Hkeys. left. by rewrite EhA.
    - apply Hkeys. right. by rewrite EhB.
    - apply Forall_nil. done. }
  split; [rewrite length_app; congruence|].
  split.
  - intros r row Hr Hrow. rewrite lookup_app_l in Hrow by lia.
    destruct (HcA r row Hrow) as [Hl Hc]. split; [done|].
    intros j n Hn. destruct (Hc j n Hn) as (H1 & H2 & H3 & H4 & H5).
    split; [done|]. split; [done|]. split; [done|]. split.
    + intros ->. by apply H4.
    + intros ->. by apply H5.
  - intros r row Hr Hrow. rewrite lookup_app_r in Hrow by lia.
    replace (length (d_var A) + r - length outA)%nat with r in Hrow by lia.
    destruct (HcB r row Hrow) as [Hl Hc]. split; [done|].
    intros j n Hn. destruct (Hc j n Hn) as (H1 & H2 & H3 & H4 & H5).
    split; [done|]. split; [done|]. split; [done|]. split.
    + intros ->. by apply H5.
    + intros ->. by apply H4.
Qed.

Lemma merge_union_witness :
  logs_to_dataframe
    [("a.log", exec (new_iteration ;; add_dynamic_value "x" (VInt 1) ;; new_iteration ;;
                     add_dynamic_value "x" (VInt 2))%method Log_init);
     ("b.log", exec (new_iteration ;; add_dynamic_value "y" (VInt 3))%method Log_init)]
  = Ok (["_log_idx"; "_log_file"; "_iteration"; "x"; "y"],
        [[VInt 0; VStr "a.log"; VInt 0; VInt 1; VNone];
         [VInt 0; VStr "a.log"; VInt 1; VInt 2; VNone];
         [VInt 1; VStr "b.log"; VInt 0; VNone; VInt 3]]) /\
  exists all_names retour,
    logs_to_dataframe
      [("a.log", exec (new_iteration ;; add_dynamic_value "x" (VInt 1) ;; new_iteration ;;
                       add_dynamic_value "x" (VInt 2))%method Log_init);
       ("b.log", exec (new_iteration ;; add_dynamic_value "y" (VInt 3))%method Log_init)]
    = Ok (all_names, retour) /\
    Forall (fun n => n ∈ all_names) ["_log_idx"; "_log_file"; "_iteration"; "x"; "y"] /\
    length retour = 3%nat.
Proof.
  split; [vm_compute; reflexivity|].
  destruct (merge_union
              (exec (new_iteration ;; add_dynamic_value "x" (VInt 1) ;; new_iteration ;;
                     add_dynamic_value "x" (VInt 2))%method Log_init)
              (exec (new_iteration ;; add_dynamic_value "y" (VInt 3))%method Log_init)
              "a.log" "b.log"
              [[VStr "_iteration"; VStr "_iteration"; VStr "x"];
               [VInt 0; VInt 0; VInt 1]; [VInt 1; VInt 1; VInt 2]]
              [[VStr "_iteration"; VStr "_iteration"; VStr "y"];
               [VInt 0; VInt 0; VInt 3]])
    as (all_names & retour & Hm & Hh & Hl & _).
  - vm_compute. reflexivity.
  - vm_compute. reflexivity.
  - apply (has_column_names ["_iteration"; "_iteration"; "x"]). set_solver.
  - intros H. apply (has_column_names ["_iteration"; "_iteration"; "x"]) in H.
    revert H. rewrite !elem_of_cons, elem_of_nil. intros [?|[?|[?|[]]]]; discriminate.
  - apply (has_column_names ["_iteration"; "_iteration"; "y"]). set_solver.
  - intros H. apply (has_column_names ["_iteration"; "_iteration"; "y"]) in H.
    revert H. rewrite !elem_of_cons, elem_of_nil. intros [?|[?|[?|[]]]]; discriminate.
  - exists all_names, retour. split; [exact Hm|]. split; [exact Hh | exact Hl].
Defined.

(** * Further properties *)

(** ** The scope stack *)

Lemma set_scopes_same (self : Log) : set_scopes self (scopes self) = self.
Proof. by destruct self. Qed.

Lemma list_pop_nil_inv {A : Type} (l : list A) : list_pop l = None -> l = [].
Proof.
  destruct l as [|x r]; [done|]. simpl. by destruct (list_pop r) as [[r' y]|].
Qed.

(** [pop_scope] gives back the name that [push_scope] pushed last and
    leaves the log as it was before the push. *)
Theorem push_pop_scope (name : string) (self : Log) :
  (push_scope name ;; pop_scope)%method self = (Ok name, self).
Proof.
  unfold bind, push_scope, modify, pop_scope. simpl.
  rewrite list_pop_app. unfold set_scopes. simpl. by destruct self.
Qed.

(** [pop_scopes n] removes the last [n] names when the stack holds that
    many; otherwise it raises an index error after it has emptied the
    stack. *)
Theorem pop_scopes_bounds (n : nat) (self : Log) :
  pop_scopes n self =
    if decide (n <= length (scopes self))%nat
    then (Ok (), set_scopes self (take (length (scopes self) - n) (scopes self)))
    else (Raise IndexError, set_scopes self []).
Proof.
  revert self. induction n as [|n IH]; intros self; simpl.
  - unfold ret. rewrite Nat.sub_0_r, firstn_all. by rewrite set_scopes_same.
  - unfold bind, pop_scope.
    destruct (scopes self) as [|x r] eqn:E using rev_ind.
    + simpl. rewrite <- E. by rewrite set_scopes_same.
    + clear IHr. rewrite list_pop_app, IH. simpl scopes.
      rewrite length_app. simpl.
      destruct (decide (n <= length r)%nat) as [H|H].
      * rewrite decide_True by lia.
        unfold set_scopes; simpl.
        replace (length r + 1 - S n)%nat with (length r - n)%nat by lia.
        rewrite take_app_le by lia. done.
      * rewrite decide_False by lia. done.
Qed.

(** ** Static values *)

Lemma for_each_add_static_value (kwargs : dict value) (self : Log) :
  for_each kwargs (fun kv => add_static_value (fst kv) (snd kv)) self
  = (Ok (),
     set_s_var self (fold_left (fun d kv => dict_set d (fst kv) (snd kv))
                               kwargs (s_var self))).
Proof.
  revert self. induction kwargs as [|[k v] r IH]; intros self; simpl.
  - by destruct self.
  - unfold bind, add_static_value, modify. rewrite IH. done.
Qed.

Lemma fold_dict_set_get {V : Type} (kwargs d : dict V) (k : string) :
  dict_get (fold_left (fun d kv => dict_set d (fst kv) (snd kv)) kwargs d) k
  = match dict_get (reverse kwargs) k with
    | Some v => Some v
    | None => dict_get d k
    end.
Proof.
  revert d. induction kwargs as [|[k' v'] r IH] using rev_ind; intros d.
  - done.
  - rewrite fold_left_app, reverse_app. simpl.
    destruct (String.eqb k' k) eqn:E.
    + apply String.eqb_eq in E. subst. by rewrite dict_get_set_eq.
    + apply String.eqb_neq in E. rewrite dict_get_set_ne by done. apply IH.
Qed.

(** [add_static_values] never raises, changes the static mapping only, and
    afterwards every key holds the value that the last of the given pairs
    with that key gives it, or its old value when no pair has that key. *)
Theorem add_static_values_lookup (kwargs : dict value) (self : Log) :
  exists self',
    add_static_values kwargs self = (Ok (), self') /\
    d_var self' = d_var self /\ t self' = t self /\ scopes self' = scopes self /\
    forall k,
      dict_get (get_static_values self') k
      = match dict_get (reverse kwargs) k with
        | Some v => Some v
        | None => dict_get (get_static_values self) k
        end.
Proof.
  unfold add_static_values. rewrite for_each_add_static_value.
  eexists. split; [done|]. simpl. repeat split; try done.
  intros k. unfold get_static_values. simpl. apply fold_dict_set_get.
Qed.

(** ** Starting an iteration *)

Lemma py_index_app_last {A : Type} (l : list A) (x : A) :
  py_index (l ++ [x]) (Z.of_nat (length l)) = Ok x.
Proof.
  rewrite py_index_nat. unfold nth_item.
  rewrite lookup_app_r by lia. by rewrite Nat.sub_diag.
Qed.

Lemma py_store_app_last {A : Type} (l : list A) (x y : A) :
  py_store (l ++ [x]) (Z.of_nat (length l)) y = (l ++ [y])%list.
Proof.
  unfold py_store. rewrite py_pos_nat, length_app. simpl.
  rewrite decide_True by lia.
  rewrite insert_app_r_alt by lia. by rewrite Nat.sub_diag.
Qed.

(** On a log with [len(d_var) = t + 1], [new_iteration] returns, adds one
    to [t], empties the scope stack and appends one tree, which is what
    recording [_iteration] below the scopes of the call makes of an empty
    dictionary: [{_iteration: t + 1}] when no scope was active. *)
Theorem new_iteration_counted (self : Log) :
  counted self ->
  exists tree,
    new_iteration self
    = (Ok (), {| s_var := s_var self;
                 d_var := d_var self ++ [VDict tree];
                 t := t self + 1;
                 scopes := [] |}) /\
    set_path (scopes self) ITERATION_KEY (VInt (t self + 1)) (VDict [])
    = Ok (VDict tree) /\
    (scopes self = [] -> tree = [(ITERATION_KEY, VInt (t self + 1))]).
Proof.
  unfold counted. intros Hc.
  destruct (set_path_fresh (scopes self) ITERATION_KEY (VInt (t self + 1)))
    as [tree Htree].
  exists tree. split; [|split; [done|]].
  - rewrite new_iteration_unfold. cbv zeta.
    erewrite add_dynamic_value_ok.
    + simpl. replace (t self + 1) with (Z.of_nat (length (d_var self))) by lia.
      rewrite py_store_app_last. unfold set_scopes, set_d_var. simpl.
      by replace (Z.of_nat (length (d_var self))) with (t self + 1) by lia.
    + simpl. replace (t self + 1) with (Z.of_nat (length (d_var self))) by lia.
      apply py_index_app_last.
    + simpl. exact Htree.
  - intros Hs. rewrite Hs in Htree. simpl in Htree. congruence.
Qed.

Lemma new_iteration_counted_witness :
  exists tree,
    new_iteration (exec new_iteration Log_init)
    = (Ok (), {| s_var := [];
                 d_var := [VDict [("_iteration", VInt 0)]; VDict tree];
                 t := 1;
                 scopes := [] |}) /\
    set_path [] ITERATION_KEY (VInt 1) (VDict []) = Ok (VDict tree) /\
    (scopes (exec new_iteration Log_init) = [] -> tree = [(ITERATION_KEY, VInt 1)]).
Proof.
  apply (new_iteration_counted (exec new_iteration Log_init)). reflexivity.
Defined.

(** ** Saving and restoring the state *)

Lemma for_each_append_step (steps : list value) (self : Log) :
  for_each steps (fun step => modify (fun self => set_d_var self (d_var self ++ [step])))
           self
  = (Ok (), set_d_var self (d_var self ++ steps)).
Proof.
  revert self. induction steps as [|x r IH]; intros self; simpl.
  - unfold ret. destruct self; simpl. unfold set_d_var; simpl. by rewrite app_nil_r.
  - unfold bind, modify. rewrite IH. unfold set_d_var; simpl.
    by rewrite <- app_assoc.
Qed.

(** On a log without iterations [set_state] returns; the state of the log
    is then the given one, so [get_state] after [set_state (get_state src)]
    gives the state of [src] again, while the static values and the scope
    stack of the target stay what they were: the static values of [src] are
    not part of its state. *)
Theorem set_state_get_state (src dst : Log) :
  d_var dst = [] ->
  exists dst',
    set_state (get_state src) dst = (Ok (), dst') /\
    get_state dst' = get_state src /\
    s_var dst' = s_var dst /\
    scopes dst' = scopes dst.
Proof.
  intros Hd. unfold set_state, bind, modify, get, ret, lift. simpl.
  rewrite Hd. simpl. rewrite for_each_append_step. simpl. rewrite Hd. simpl.
  eexists. split; [done|]. done.
Qed.

Lemma set_state_get_state_witness :
  exists dst',
    set_state (get_state (exec new_iteration Log_init))
              (exec (add_static_value "lr" (VInt 1)) Log_init) = (Ok (), dst') /\
    get_state dst' = get_state (exec new_iteration Log_init) /\
    s_var dst' = s_var (exec (add_static_value "lr" (VInt 1)) Log_init) /\
    scopes dst' = scopes (exec (add_static_value "lr" (VInt 1)) Log_init).
Proof.
  apply (set_state_get_state (exec new_iteration Log_init)
           (exec (add_static_value "lr" (VInt 1)) Log_init)).
  reflexivity.
Defined.

(** ** Paths in a tree *)

Lemma addresses_dict_inv (v : value) (path : list string) (sub : dict value) :
  addresses v path (VDict sub) -> exists d, v = VDict d.
Proof. intros H. inversion H; subst; by eexists. Qed.

Lemma addresses_snoc (tree : value) (path : list string) (sub : dict value)
    (key : string) (v : value) :
  addresses tree path (VDict sub) ->
  dict_get sub key = Some v ->
  addresses tree (path ++ [key]) v.
Proof.
  intros H Hget. remember (VDict sub) as node eqn:En.
  induction H as [node|d k path child node Hk _ IH]; subst; simpl.
  - eapply addresses_below; [exact Hget | apply addresses_here].
  - eapply addresses_below; [exact Hk | by apply IH].
Qed.

Lemma set_path_dict (ss : list string) (key : string) (val tt0 tt' : value) :
  set_path ss key val tt0 = Ok tt' -> exists d, tt0 = VDict d.
Proof.
  destruct ss as [|s rest]; destruct tt0 as [| | str |d]; simpl; try done.
  - by eexists.
  - destruct (negb (str_contains str s)); simpl; done.
  - by eexists.
Qed.

(** After the loop of [add_dynamic_value] the scopes address a dictionary
    that holds the value under the key. *)
Lemma set_path_addresses (ss : list string) (key : string) (val tt0 tt' : value) :
  set_path ss key val tt0 = Ok tt' ->
  exists sub, addresses tt' ss (VDict sub) /\ dict_get sub key = Some val.
Proof.
  revert tt0 tt'. induction ss as [|s rest IH]; intros tt0 tt' Hset.
  - destruct (set_path_dict _ _ _ _ _ Hset) as [d ->]. simpl in Hset.
    injection Hset as <-. eexists. split; [apply addresses_here|].
    apply dict_get_set_eq.
  - destruct (set_path_dict _ _ _ _ _ Hset) as [d ->]. simpl in Hset.
    unfold dict_mem in Hset.
    destruct (dict_get d s) as [child|] eqn:E; simpl in Hset.
    + rewrite E in Hset. simpl in Hset.
      destruct (set_path rest key val child) as [child'|] eqn:F; simpl in Hset; [|done].
      injection Hset as <-. destruct (IH _ _ F) as (sub & Ha & Hg).
      exists sub. split; [|done].
      eapply addresses_below; [apply dict_get_set_eq | exact Ha].
    + rewrite dict_get_set_eq in Hset. simpl in Hset.
      destruct (set_path rest key val (VDict [])) as [child'|] eqn:F;
        simpl in Hset; [|done].
      injection Hset as <-. destruct (IH _ _ F) as (sub & Ha & Hg).
      exists sub. split; [|done].
      eapply addresses_below; [apply dict_get_set_eq | exact Ha].
Qed.

(** The loop of [add_dynamic_value] leaves every leaf in its place, except
    below the path that it assigns. *)
Lemma set_path_keeps_leaf (ss : list string) (key : string) (val tt0 tt' : value)
    (path : list string) (v : value) :
  set_path ss key val tt0 = Ok tt' ->
  addresses tt0 path v ->
  is_dict v = false ->
  ~ (ss ++ [key])%list `prefix_of` path ->
  addresses tt' path v.
Proof.
  revert tt0 tt' path. induction ss as [|s rest IH]; intros tt0 tt' path Hset Ha Hleaf Hp.
  - destruct (set_path_dict _ _ _ _ _ Hset) as [d ->]. simpl in Hset.
    injection Hset as <-. inversion Ha as [|d0 k q child v0 Hk Hq]; subst; [done|].
    eapply addresses_below; [|exact Hq].
    rewrite dict_get_set_ne; [done|]. intros <-. apply Hp.
    simpl. by exists q.
  - destruct (set_path_dict _ _ _ _ _ Hset) as [d ->].
    inversion Ha as [|d0 k q child v0 Hk Hq]; subst; [done|].
    simpl in Hset. unfold dict_mem in Hset.
    destruct (decide (k = s)) as [->|Hne].
    + rewrite Hk in Hset. simpl in Hset. rewrite Hk in Hset. simpl in Hset.
      destruct (set_path rest key val child) as [child'|] eqn:F; simpl in Hset; [|done].
      injection Hset as <-.
      eapply addresses_below; [apply dict_get_set_eq|].
      apply (IH _ _ _ F Hq Hleaf). intros [m Hm]. apply Hp.
      exists m. simpl. by rewrite Hm.
    + destruct (dict_get d s) as [child0|] eqn:E; simpl in Hset.
      * rewrite E in Hset. simpl in Hset.
        destruct (set_path rest key val child0) as [child'|]; simpl in Hset; [|done].
        injection Hset as <-.
        eapply addresses_below; [|exact Hq]. by rewrite dict_get_set_ne.
      * rewrite dict_get_set_eq in Hset. simpl in Hset.
        destruct (set_path rest key val (VDict [])) as [child'|]; simpl in Hset; [|done].
        injection Hset as <-.
        eapply addresses_below; [|exact Hq]. by rewrite !dict_get_set_ne.
Qed.

Lemma add_dynamic_value_inv (self self' : Log) (key : string) (val : value) :
  add_dynamic_value key val self = (Ok (), self') ->
  exists tt0 tt',
    py_index (d_var self) (t self) = Ok tt0 /\
    set_path (scopes self) key val tt0 = Ok tt' /\
    self' = set_d_var self (py_store (d_var self) (t self) tt').
Proof.
  unfold add_dynamic_value, bind, get, lift, modify.
  destruct (py_index (d_var self) (t self)) as [tt0|] eqn:E; [|done].
  destruct (set_path (scopes self) key val tt0) as [tt'|] eqn:F; [|done].
  intros [= <-]. by exists tt0, tt'.
Qed.

(** ** Splitting and joining names *)

Lemma split_dotless (s : string) : dotless s = true -> split SCOPE_SEP s = [s].
Proof.
  induction s as [|c s' IH]; simpl; [done|].
  destruct (Ascii.eqb c SCOPE_SEP); simpl; [done|].
  intros H. by rewrite (IH H).
Qed.

Lemma split_app_sep (a b : string) :
  split SCOPE_SEP (a ++ String SCOPE_SEP b)
  = (split SCOPE_SEP a ++ split SCOPE_SEP b)%list.
Proof.
  induction a as [|c a' IH]; simpl; [done|].
  destruct (Ascii.eqb c SCOPE_SEP); simpl; [by rewrite IH|].
  rewrite IH. destruct (split SCOPE_SEP a') as [|h r] eqn:E; [|done].
  pose proof (split_nonempty SCOPE_SEP a') as Hn. rewrite E in Hn. simpl in Hn. lia.
Qed.

Lemma split_join (path : list string) :
  path <> [] ->
  Forall (fun s => dotless s = true) path ->
  split SCOPE_SEP (join "." path) = path.
Proof.
  induction path as [|s r IH]; [done|]. intros _ Hall.
  apply Forall_cons in Hall as [Hs Hr]. destruct r as [|s' r'].
  - simpl. by apply split_dotless.
  - change (join "." (s :: s' :: r')) with (s ++ String SCOPE_SEP (join "." (s' :: r'))).
    rewrite split_app_sep, IH by done. by rewrite split_dotless.
Qed.

(** ** Reading back what was recorded *)

Lemma last_walk_addresses (values : value) (ss : list string) (sub : dict value)
    (key : string) (v r : value) :
  addresses values ss (VDict sub) ->
  dict_get sub key = Some v ->
  ss <> [] ->
  last_walk ss key values r = Ok v.
Proof.
  intros Ha Hget. revert r. remember (VDict sub) as node eqn:En.
  induction Ha as [node|d k path child node Hk Hc IH]; intros r Hne; [done|].
  subst node. simpl. unfold dict_mem. rewrite Hk. simpl.
  destruct (addresses_dict_inv _ _ _ Hc) as [d' ->]. simpl. unfold dict_mem.
  destruct path as [|k' path'].
  - assert (d' = sub) as -> by (inversion Hc; congruence).
    rewrite Hget. done.
  - destruct (dict_get d' key) as [x|]; simpl; by apply IH.
Qed.

Lemma dtable_walk_addresses (tree : value) (path : list string) (v : value) :
  addresses tree path v -> dtable_walk path tree = Ok v.
Proof.
  induction 1 as [v|d k path child v Hget _ IH]; simpl; [done|].
  rewrite Hget. simpl. exact IH.
Qed.

Lemma walks_missing (tree : value) (pre : list string) (d : dict value)
    (s : string) (rest : list string) :
  addresses tree pre (VDict d) ->
  dict_get d s = None ->
  scoped_walk (pre ++ s :: rest) tree = Ok VNone /\
  dtable_walk (pre ++ s :: rest) tree = Raise KeyError.
Proof.
  intros Ha Hs. remember (VDict d) as node eqn:En.
  induction Ha as [node|d0 k path child node Hk _ IH]; subst; simpl.
  - unfold dict_mem. by rewrite Hs.
  - unfold dict_mem. rewrite Hk. simpl. by apply IH.
Qed.

(** The shadowed lookup in general: when the active scopes address a
    dictionary of the current tree that holds the key, its value is the
    result, whatever the shallower scopes hold under the key. *)
Theorem get_last_dynamic_value_deepest (self : Log) (tree : value)
    (sub : dict value) (key : string) (v : value) :
  py_index (d_var self) (t self) = Ok tree ->
  addresses tree (scopes self) (VDict sub) ->
  dict_get sub key = Some v ->
  get_last_dynamic_value self key = Ok v.
Proof.
  intros Hidx Ha Hget. unfold get_last_dynamic_value. rewrite Hidx. simpl.
  destruct (addresses_dict_inv _ _ _ Ha) as [d ->]. simpl. unfold dict_mem.
  destruct (scopes self) as [|s rest] eqn:E.
  - assert (d = sub) as -> by (inversion Ha; congruence). by rewrite Hget.
  - destruct (dict_get d key) as [x|]; unfold rbind;
      by apply (last_walk_addresses _ _ sub).
Qed.

Lemma get_last_dynamic_value_deepest_witness :
  get_last_dynamic_value
    (exec (new_iteration ;; add_dynamic_value "loss" (VInt 1) ;; push_scope "a" ;;
           push_scope "b" ;; add_dynamic_value "loss" (VInt 3))%method Log_init)
    "loss" = Ok (VInt 3).
Proof.
  apply (get_last_dynamic_value_deepest _
           (VDict [("_iteration", VInt 0); ("loss", VInt 1);
                   ("a", VDict [("b", VDict [("loss", VInt 3)])])])
           [("loss", VInt 3)]).
  - reflexivity.
  - vm_compute. eapply addresses_below; [reflexivity|].
    eapply addresses_below; [reflexivity|]. apply addresses_here.
  - reflexivity.
Defined.

(** A value that [add_dynamic_value] has recorded is what the shadowed
    lookup of its key gives next, and [_get_dtable] on the active scopes
    gives a dictionary that holds it. *)
Theorem add_dynamic_value_read_back (self self' : Log) (key : string) (val : value) :
  add_dynamic_value key val self = (Ok (), self') ->
  get_last_dynamic_value self' key = Ok val /\
  exists sub,
    _get_dtable self' (scopes self') (t self') = Ok (VDict sub) /\
    dict_get sub key = Some val.
Proof.
  intros Hadd.
  destruct (add_dynamic_value_inv _ _ _ _ Hadd) as (tt0 & tt' & Hidx & Hset & ->).
  destruct (set_path_addresses _ _ _ _ _ Hset) as (sub & Ha & Hg).
  assert (Hidx' : py_index (py_store (d_var self) (t self) tt') (t self) = Ok tt')
    by (by eapply py_index_store).
  split.
  - unfold get_last_dynamic_value. simpl. rewrite Hidx'. simpl.
    destruct (addresses_dict_inv _ _ _ Ha) as [d ->]. simpl. unfold dict_mem.
    destruct (scopes self) as [|s rest] eqn:E.
    + assert (d = sub) as -> by (inversion Ha; congruence). by rewrite Hg.
    + destruct (dict_get d key) as [x|]; unfold rbind;
        by apply (last_walk_addresses _ _ sub).
  - exists sub. split; [|done]. unfold _get_dtable. simpl. rewrite Hidx'. simpl.
    by apply dtable_walk_addresses.
Qed.

Lemma add_dynamic_value_read_back_witness :
  get_last_dynamic_value
    (exec (new_iteration ;; push_scope "train" ;;
           add_dynamic_value "loss" (VInt 2))%method Log_init) "loss" = Ok (VInt 2) /\
  exists sub,
    _get_dtable
      (exec (new_iteration ;; push_scope "train" ;;
             add_dynamic_value "loss" (VInt 2))%method Log_init)
      (scopes (exec (new_iteration ;; push_scope "train" ;;
                     add_dynamic_value "loss" (VInt 2))%method Log_init))
      (t (exec (new_iteration ;; push_scope "train" ;;
                add_dynamic_value "loss" (VInt 2))%method Log_init))
    = Ok (VDict sub) /\
    dict_get sub "loss" = Some (VInt 2).
Proof.
  apply (add_dynamic_value_read_back
           (exec (new_iteration ;; push_scope "train")%method Log_init)
           _ "loss" (VInt 2)).
  reflexivity.
Defined.

(** A value recorded under scopes and a key that hold no separator is what
    [get_scoped_value] gives for the dotted name of the scopes and the
    key. *)
Theorem add_dynamic_value_scoped_read_back (self self' : Log) (key : string)
    (val : value) :
  add_dynamic_value key val self = (Ok (), self') ->
  Forall (fun s => dotless s = true) (scopes self ++ [key]) ->
  get_scoped_value self' (t self) (join "." (scopes self ++ [key])) = Ok val.
Proof.
  intros Hadd Hdots.
  destruct (add_dynamic_value_inv _ _ _ _ Hadd) as (tt0 & tt' & Hidx & Hset & ->).
  destruct (set_path_addresses _ _ _ _ _ Hset) as (sub & Ha & Hg).
  unfold get_scoped_value. simpl.
  rewrite (py_index_store _ _ _ tt' Hidx). simpl.
  change "."%char with SCOPE_SEP. rewrite split_join; [|by destruct (scopes self)|done].
  apply scoped_walk_addresses. by eapply addresses_snoc.
Qed.

Lemma add_dynamic_value_scoped_read_back_witness :
  get_scoped_value
    (exec (new_iteration ;; push_scopes (NamesStr "train.batch") ;;
           add_dynamic_value "loss" (VInt 2))%method Log_init)
    0 "train.batch.loss" = Ok (VInt 2).
Proof.
  apply (add_dynamic_value_scoped_read_back
           (exec (new_iteration ;; push_scopes (NamesStr "train.batch"))%method Log_init)
           _ "loss" (VInt 2)).
  - reflexivity.
  - vm_compute. repeat constructor.
Defined.

(** Where a segment of the name is missing from the dictionary that the
    segments before it address, [get_scoped_value] gives [None] and
    [_get_dtable] raises a key error. *)
Theorem missing_segment (self : Log) (ti : Z) (name : string) (tree : value)
    (pre : list string) (d : dict value) (s : string) (rest : list string) :
  py_index (d_var self) ti = Ok tree ->
  split "."%char name = (pre ++ s :: rest)%list ->
  addresses tree pre (VDict d) ->
  dict_get d s = None ->
  get_scoped_value self ti name = Ok VNone /\
  _get_dtable self (pre ++ s :: rest) ti = Raise KeyError.
Proof.
  intros Hidx Hsplit Ha Hs. unfold get_scoped_value, _get_dtable.
  rewrite Hidx, Hsplit. simpl. by apply (walks_missing _ _ d).
Qed.

Lemma missing_segment_witness :
  get_scoped_value
    (exec (new_iteration ;; add_dynamic_values (NamesStr "train") [("loss", VInt 2)])%method
          Log_init) 0 "train.acc.top1" = Ok VNone /\
  _get_dtable
    (exec (new_iteration ;; add_dynamic_values (NamesStr "train") [("loss", VInt 2)])%method
          Log_init) (["train"] ++ "acc" :: ["top1"]) 0 = Raise KeyError.
Proof.
  apply (missing_segment _ 0 "train.acc.top1"
           (VDict [("_iteration", VInt 0); ("train", VDict [("loss", VInt 2)])])
           ["train"] [("loss", VInt 2)] "acc" ["top1"]).
  - reflexivity.
  - reflexivity.
  - eapply addresses_below; [reflexivity | apply addresses_here].
  - reflexivity.
Defined.

(** ** What recording leaves alone *)

Lemma py_index_store_other {A : Type} (l : list A) (i j : Z) (y x : A) :
  py_index l j = Ok x ->
  py_pos (length l) i <> py_pos (length l) j ->
  py_index (py_store l i y) j = Ok x.
Proof.
  unfold py_index, py_store. intros Hj Hne.
  destruct (py_pos (length l) i) as [p|] eqn:Ei; [|done].
  rewrite length_insert.
  destruct (py_pos (length l) j) as [q|] eqn:Ej; [|done].
  rewrite list_lookup_insert_ne by congruence. done.
Qed.

(** On a log that recording operations without dictionary values have
    built from a new log, a returning [add_dynamic_value] changes nothing
    but trees: the static values, [t], the scope stack and the number of
    iterations stay, and a leaf of any iteration stays under its path unless
    the path starts with the scopes and the key of the call. *)
Theorem add_dynamic_value_keeps_leaves (ops : list record_op) (self' : Log)
    (key : string) (val : value) (ti : Z) (tree : value) (path : list string)
    (v : value) :
  Forall scalar_op ops ->
  add_dynamic_value key val (run_ops ops Log_init) = (Ok (), self') ->
  py_index (d_var (run_ops ops Log_init)) ti = Ok tree ->
  addresses tree path v ->
  is_dict v = false ->
  ~ (scopes (run_ops ops Log_init) ++ [key])%list `prefix_of` path ->
  s_var self' = s_var (run_ops ops Log_init) /\
  t self' = t (run_ops ops Log_init) /\
  scopes self' = scopes (run_ops ops Log_init) /\
  length (d_var self') = length (d_var (run_ops ops Log_init)) /\
  exists tree', py_index (d_var self') ti = Ok tree' /\ addresses tree' path v.
Proof.
  intros _. generalize (run_ops ops Log_init). intros self Hadd Hidx Ha Hleaf Hp.
  destruct (add_dynamic_value_inv _ _ _ _ Hadd) as (tt0 & tt' & Hcur & Hset & ->).
  simpl. split; [done|]. split; [done|]. split; [done|].
  split; [apply py_store_length|].
  destruct (decide (py_pos (length (d_var self)) (t self)
                    = py_pos (length (d_var self)) ti)) as [Heq|Hne].
  - assert (tree = tt0) as ->.
    { unfold py_index in Hidx, Hcur. rewrite Heq in Hcur. congruence. }
    exists tt'. split; [|by eapply set_path_keeps_leaf].
    unfold py_index, py_store in *.
    destruct (py_pos (length (d_var self)) (t self)) as [p|] eqn:E; [|done].
    rewrite length_insert, <- Heq.
    rewrite list_lookup_insert_eq; [done | by eapply py_pos_lt].
  - exists tree. split; [|done]. by apply py_index_store_other.
Qed.

Lemma add_dynamic_value_keeps_leaves_witness :
  add_dynamic_value "acc" (VInt 2)
    (run_ops [OpNewIteration; OpAddDynamicValue "loss" (VInt 1)] Log_init)
  = (Ok (),
     {| s_var := [];
        d_var := [VDict [("_iteration", VInt 0); ("loss", VInt 1); ("acc", VInt 2)]];
        t := 0;
        scopes := [] |}) /\
  exists tree',
    py_index
      (d_var {| s_var := [];
                d_var := [VDict [("_iteration", VInt 0); ("loss", VInt 1);
                                 ("acc", VInt 2)]];
                t := 0;
                scopes := [] |}) 0 = Ok tree' /\
    addresses tree' ["loss"] (VInt 1).
Proof.
  split; [reflexivity|].
  apply (add_dynamic_value_keeps_leaves
           [OpNewIteration; OpAddDynamicValue "loss" (VInt 1)] _ "acc" (VInt 2) 0
           (VDict [("_iteration", VInt 0); ("loss", VInt 1)]) ["loss"] (VInt 1)).
  - apply Forall_cons. split; [exact I|].
    apply Forall_cons. split; [reflexivity | apply Forall_nil; done].
  - reflexivity.
  - reflexivity.
  - eapply addresses_below; [reflexivity | apply addresses_here].
  - reflexivity.
  - intros [m Hm]. vm_compute in Hm. discriminate Hm.
Defined.

Lemma pop_scopes_base (names : list string) (self : Log) (base : list string) :
  scopes self = (base ++ names)%list ->
  pop_scopes (length names) self = (Ok (), set_scopes self base).
Proof.
  revert self. induction names as [|n r IH] using rev_ind; intros self Hs; simpl.
  - unfold ret. rewrite app_nil_r in Hs. rewrite <- Hs. by rewrite set_scopes_same.
  - rewrite length_app. simpl. rewrite Nat.add_1_r. simpl.
    unfold bind, pop_scope. rewrite Hs, app_assoc, list_pop_app.
    by rewrite (IH (set_scopes self (base ++ r))).
Qed.

Lemma keeps_scopes_bind {A B : Type} (m : M A) (k : A -> M B) :
  keeps_scopes m -> (forall a, keeps_scopes (k a)) -> keeps_scopes (bind m k).
Proof.
  intros Hm Hk self. unfold bind. specialize (Hm self).
  destruct (m self) as [[a|e] self1]; simpl in *; [|done].
  rewrite (Hk a self1). done.
Qed.

Lemma keeps_scopes_add_dynamic_value (key : string) (val : value) :
  keeps_scopes (add_dynamic_value key val).
Proof.
  intros self. unfold add_dynamic_value, bind, get, lift, modify.
  destruct (py_index (d_var self) (t self)) as [tt0|]; [|done].
  by destruct (set_path (scopes self) key val tt0) as [tt'|].
Qed.

Lemma keeps_scopes_for_each {A : Type} (l : list A) (body : A -> M unit) :
  (forall x, keeps_scopes (body x)) -> keeps_scopes (for_each l body).
Proof.
  intros Hb. induction l as [|x r IH]; simpl.
  - by intros self.
  - apply keeps_scopes_bind; [apply Hb | intros _; exact IH].
Qed.

(** [add_dynamic_values] leaves the scope stack as it found it when it
    returns; when recording one of the values raises, the scopes it pushed
    stay on the stack. *)
Theorem add_dynamic_values_scopes (scope_ : names_arg) (kwargs : dict value)
    (self : Log) :
  match add_dynamic_values scope_ kwargs self with
  | (Ok _, self') => scopes self' = scopes self
  | (Raise _, self') => scopes self' = (scopes self ++ pushed_names scope_)%list
  end.
Proof.
  unfold add_dynamic_values. unfold bind at 1. rewrite push_scopes_spec.
  set (self1 := set_scopes self (scopes self ++ pushed_names scope_)).
  unfold bind.
  pose proof (keeps_scopes_for_each kwargs
                (fun kv => add_dynamic_value (fst kv) (snd kv))
                (fun kv => keeps_scopes_add_dynamic_value (fst kv) (snd kv)) self1) as Hs.
  destruct (for_each kwargs _ self1) as [[u|e] self2]; simpl in Hs; [|done].
  by rewrite (pop_scopes_base (pushed_names scope_) self2 (scopes self)).
Qed.

(** ** Columns of top-level keys *)

(** When [get_column] returns, it has one entry per iteration, every
    iteration is a dictionary that holds the key, and for a key without
    separator the entries are what [get_scoped_value] gives. *)
Theorem get_column_agrees (self : Log) (key : string) (c : list value) :
  get_column self key = Ok c ->
  dotless key = true ->
  length c = length (d_var self) /\
  (forall i d, d_var self !! i = Some d ->
     exists dd, d = VDict dd /\ is_Some (dict_get dd key)) /\
  (forall (i : nat) v, c !! i = Some v ->
     get_scoped_value self (Z.of_nat i) key = Ok v).
Proof.
  intros Hc Hdot. apply res_map_Forall2 in Hc.
  assert (Hitem : forall d v, py_getitem d key = Ok v ->
            exists dd, d = VDict dd /\ dict_get dd key = Some v).
  { intros d v. destruct d as [| | |dd]; simpl; try done.
    destruct (dict_get dd key) as [x|] eqn:E; [|done].
    intros [= ->]. by exists dd. }
  split; [symmetry; by eapply Forall2_length|]. split.
  - intros i d Hd. destruct (Forall2_lookup_l _ _ _ _ _ Hc Hd) as (v & _ & Hv).
    destruct (Hitem d v Hv) as (dd & -> & Hg). exists dd. by rewrite Hg.
  - intros i v Hv. destruct (Forall2_lookup_r _ _ _ _ _ Hc Hv) as (d & Hd & Hg).
    destruct (Hitem d v Hg) as (dd & -> & Hk).
    unfold get_scoped_value. rewrite py_index_nat. unfold nth_item. rewrite Hd.
    simpl. change "."%char with SCOPE_SEP. rewrite split_dotless by done.
    simpl. unfold dict_mem. by rewrite Hk.
Qed.

Lemma get_column_agrees_witness :
  get_column (exec (new_iteration ;; add_dynamic_value "loss" (VInt 1) ;;
                    new_iteration ;; add_dynamic_value "loss" (VInt 2))%method Log_init)
             "loss" = Ok [VInt 1; VInt 2] /\
  length [VInt 1; VInt 2]
  = length (d_var (exec (new_iteration ;; add_dynamic_value "loss" (VInt 1) ;;
                         new_iteration ;;
                         add_dynamic_value "loss" (VInt 2))%method Log_init)).
Proof.
  split; [reflexivity|].
  apply (get_column_agrees
           (exec (new_iteration ;; add_dynamic_value "loss" (VInt 1) ;;
                  new_iteration ;; add_dynamic_value "loss" (VInt 2))%method Log_init)
           "loss" [VInt 1; VInt 2]); reflexivity.
Defined.

(** ** The generated column names *)

Lemma columns_of_value_child (d d' : dict value) (k : string) (scope : list string) :
  dict_get d k = Some (VDict d') ->
  columns_of_value (VDict d') (scope ++ [k]) ⊆ columns_of_value (VDict d) scope.
Proof.
  intros Hget. simpl.
  induction d as [|[k0 v0] r IH]; simpl in *; [done|].
  destruct (String.eqb k0 k) eqn:E.
  - apply String.eqb_eq in E. subst k0. injection Hget as ->. simpl. set_solver.
  - specialize (IH Hget). set_solver.
Qed.

Lemma columns_of_value_path (d : dict value) (path : list string) (v : value)
    (scope : list string) :
  addresses (VDict d) path v ->
  path <> [] ->
  is_dict v = false ->
  join "." (scope ++ path) ∈ columns_of_value (VDict d) scope.
Proof.
  revert d scope. induction path as [|k rest IH]; intros d scope Ha Hne Hleaf; [done|].
  inversion Ha as [|d0 k0 q child v0 Hk Hq]; subst.
  destruct rest as [|k' rest'].
  - inversion Hq; subst. by apply (columns_of_value_leaf d k v scope).
  - assert (exists d', child = VDict d') as [d' ->] by (inversion Hq; by eexists).
    apply (columns_of_value_child d d' k scope Hk).
    replace (scope ++ k :: k' :: rest')%list with ((scope ++ [k]) ++ k' :: rest')%list
      by (by rewrite <- app_assoc).
    by apply IH.
Qed.

(** Every leaf of an iteration up to [t] has its dotted path among the
    generated column names. *)
Theorem columns_complete (self : Log) (names : list string) (ti : nat)
    (tree : dict value) (path : list string) (v : value) :
  _generate_columns_names self = Ok names ->
  Z.of_nat ti <= t self ->
  d_var self !! ti = Some (VDict tree) ->
  addresses (VDict tree) path v ->
  path <> [] ->
  is_dict v = false ->
  join "." path ∈ names.
Proof.
  intros Hnames Hti Hlook Ha Hne Hleaf.
  unfold _generate_columns_names in Hnames.
  destruct (columns_loop self (range (t self + 1)) ∅) as [cols|] eqn:Hloop;
    simpl in Hnames; [|done].
  injection Hnames as <-. apply elem_of_elements.
  eapply (columns_loop_covers self _ _ _ ti tree Hloop); [|done|].
  - unfold range. apply elem_of_seq. lia.
  - by apply (columns_of_value_path tree path v []).
Qed.

Lemma columns_complete_witness :
  "train.loss" ∈ ["_iteration"; "train.loss"].
Proof.
  apply (columns_complete
           (exec (new_iteration ;;
                  add_dynamic_values (NamesStr "train") [("loss", VInt 2)])%method Log_init)
           ["_iteration"; "train.loss"] 0
           [("_iteration", VInt 0); ("train", VDict [("loss", VInt 2)])]
           ["train"; "loss"] (VInt 2)).
  - vm_compute. reflexivity.
  - vm_compute. discriminate.
  - reflexivity.
  - eapply addresses_below; [reflexivity|].
    eapply addresses_below; [reflexivity|]. apply addresses_here.
  - discriminate.
  - reflexivity.
Defined.

(** ** The plain array *)

Lemma map_VStr_inj (l k : list string) : map VStr l = map VStr k -> l = k.
Proof.
  revert k. induction l as [|x r IH]; intros [|y k']; simpl; try done.
  intros [= -> H]. f_equal. by apply IH.
Qed.

Lemma to_array_inv (self : Log) (arr : list (list value)) :
  to_array self = Ok arr ->
  exists names rows,
    _generate_columns_names self = Ok names /\
    arr = map VStr names :: rows /\
    Forall2 (fun ti row =>
               Forall2 (fun name c => get_scoped_value self (Z.of_nat ti) name = Ok c)
                       names row)
            (seq 0 (length (d_var self))) rows.
Proof.
  unfold to_array.
  destruct (_generate_columns_names self) as [names|]; simpl; [|done].
  destruct (res_map _ _) as [rows|] eqn:E; simpl; [|done].
  intros [= <-]. exists names, rows. split; [done|]. split; [done|].
  apply res_map_Forall2 in E. unfold range in E. rewrite Nat2Z.id in E.
  eapply Forall2_impl; [exact E|]. intros ti row H. simpl in H.
  by apply res_map_Forall2.
Qed.

(** When [to_array] returns, the array is a header without repeated names
    followed by one row per iteration, every row is as wide as the header,
    and every cell is what [get_scoped_value] gives for the iteration of
    its row and the name of its column. *)
Theorem to_array_cells (self : Log) (arr : list (list value)) :
  to_array self = Ok arr ->
  exists names rows,
    _generate_columns_names self = Ok names /\
    arr = map VStr names :: rows /\
    NoDup names /\
    length rows = length (d_var self) /\
    forall (ti : nat) row, rows !! ti = Some row ->
      length row = length names /\
      forall j name, names !! j = Some name ->
        exists c, row !! j = Some c /\
                  get_scoped_value self (Z.of_nat ti) name = Ok c.
Proof.
  intros Harr.
  destruct (to_array_inv _ _ Harr) as (names & rows & Hn & -> & Hrows).
  exists names, rows. split; [done|]. split; [done|].
  split.
  { unfold _generate_columns_names in Hn.
    destruct (columns_loop _ _ _) as [cols|]; simpl in Hn; [|done].
    injection Hn as <-. apply NoDup_elements. }
  split.
  { apply Forall2_length in Hrows. by rewrite length_seq in Hrows. }
  intros ti row Hrow.
  destruct (Forall2_lookup_r _ _ _ _ _ Hrows Hrow) as (ti' & Hti & Hcells).
  apply lookup_seq in Hti as [-> _]. simpl in Hcells. split.
  - symmetry. by eapply Forall2_length.
  - intros j name Hj. destruct (Forall2_lookup_l _ _ _ _ _ Hcells Hj) as (c & Hc & Hok).
    by exists c.
Qed.

Lemma to_array_cells_witness :
  to_array (exec (new_iteration ;; add_dynamic_value "x" (VInt 1) ;; new_iteration)%method
                 Log_init)
  = Ok [[VStr "_iteration"; VStr "x"]; [VInt 0; VInt 1]; [VInt 1; VNone]] /\
  exists names rows,
    _generate_columns_names
      (exec (new_iteration ;; add_dynamic_value "x" (VInt 1) ;; new_iteration)%method
            Log_init) = Ok names /\
    [[VStr "_iteration"; VStr "x"]; [VInt 0; VInt 1]; [VInt 1; VNone]]
    = map VStr names :: rows /\
    NoDup names.
Proof.
  split; [vm_compute; reflexivity|].
  destruct (to_array_cells
              (exec (new_iteration ;; add_dynamic_value "x" (VInt 1) ;;
                     new_iteration)%method Log_init)
              [[VStr "_iteration"; VStr "x"]; [VInt 0; VInt 1]; [VInt 1; VNone]])
    as (names & rows & Hn & Harr & Hnd & _).
  - vm_compute. reflexivity.
  - exists names, rows. split; [exact Hn|]. split; [exact Harr | exact Hnd].
Defined.

(** A leaf that an iteration up to [t] holds under a path of names without
    separator is in the array of [to_array]: the header has the dotted
    path, and the row of the iteration holds the leaf in that column. *)
Theorem to_array_leaf_cell (self : Log) (names : list string)
    (rows : list (list value)) (ti : nat) (tree : dict value)
    (path : list string) (v : value) :
  to_array self = Ok (map VStr names :: rows) ->
  Z.of_nat ti <= t self ->
  d_var self !! ti = Some (VDict tree) ->
  addresses (VDict tree) path v ->
  path <> [] ->
  is_dict v = false ->
  Forall (fun s => dotless s = true) path ->
  exists j row,
    names !! j = Some (join "." path) /\
    rows !! ti = Some row /\
    row !! j = Some v.
Proof.
  intros Harr Hti Hlook Ha Hne Hleaf Hdots.
  destruct (to_array_inv _ _ Harr) as (names' & rows' & Hn & Heq & Hrows).
  injection Heq as Hnames <-.
  apply map_VStr_inj in Hnames. subst names'.
  assert (Hin : join "." path ∈ names).
  { unfold _generate_columns_names in Hn.
    destruct (columns_loop self (range (t self + 1)) ∅) as [cols|] eqn:Hloop;
      simpl in Hn; [|done].
    injection Hn as <-. apply elem_of_elements.
    eapply (columns_loop_covers self _ _ _ ti tree Hloop); [|done|].
    - unfold range. apply elem_of_seq. lia.
    - by apply (columns_of_value_path tree path v []). }
  apply list_elem_of_lookup in Hin as [j Hj].
  destruct (lookup_lt_is_Some_2 rows ti) as [row Hrow].
  { apply Forall2_length in Hrows. rewrite length_seq in Hrows. rewrite <- Hrows.
    by eapply lookup_lt_Some. }
  destruct (Forall2_lookup_r _ _ _ _ _ Hrows Hrow) as (ti' & Hti' & Hcells).
  apply lookup_seq in Hti' as [-> _]. simpl in Hcells.
  destruct (Forall2_lookup_l _ _ _ _ _ Hcells Hj) as (c & Hcj & Hget).
  exists j, row. split; [done|]. split; [done|].
  unfold get_scoped_value in Hget. rewrite py_index_nat in Hget.
  unfold nth_item in Hget. rewrite Hlook in Hget. simpl in Hget.
  change "."%char with SCOPE_SEP in Hget. rewrite split_join in Hget by done.
  rewrite (scoped_walk_addresses _ _ _ Ha) in Hget. congruence.
Qed.

Lemma to_array_leaf_cell_witness :
  exists j row,
    ["_iteration"; "x"] !! j = Some (join "." ["x"]) /\
    [[VInt 0; VInt 1]; [VInt 1; VNone]] !! 0%nat = Some row /\
    row !! j = Some (VInt 1).
Proof.
  apply (to_array_leaf_cell
           (exec (new_iteration ;; add_dynamic_value "x" (VInt 1) ;;
                  new_iteration)%method Log_init)
           ["_iteration"; "x"] [[VInt 0; VInt 1]; [VInt 1; VNone]] 0
           [("_iteration", VInt 0); ("x", VInt 1)] ["x"] (VInt 1)).
  - vm_compute. reflexivity.
  - vm_compute. discriminate.
  - reflexivity.
  - eapply addresses_below; [reflexivity | apply addresses_here].
  - discriminate.
  - reflexivity.
  - repeat constructor.
Defined.

(** ** Keys that hold the separator *)

Lemma append_sep_neq (a b : string) (c : ascii) : (a ++ String c b)%string <> a.
Proof. induction a as [|x a' IH]; simpl; [done|]. intros [= H]. by apply IH. Qed.

(** A key that holds the separator is recorded as one key, so that its
    column name is generated; but [get_scoped_value] splits the name, looks
    for the part before the separator, and gives [None] when the tree has
    no such key. *)
Theorem dotted_key_unreachable (self : Log) (a b : string) (val : value)
    (d : dict value) :
  scopes self = [] ->
  py_index (d_var self) (t self) = Ok (VDict d) ->
  dict_get d a = None ->
  dotless a = true ->
  is_dict val = false ->
  exists self' d',
    add_dynamic_value (a ++ String SCOPE_SEP b) val self = (Ok (), self') /\
    py_index (d_var self') (t self) = Ok (VDict d') /\
    (a ++ String SCOPE_SEP b)%string ∈ columns_of_value (VDict d') [] /\
    get_scoped_value self' (t self) (a ++ String SCOPE_SEP b) = Ok VNone.
Proof.
  intros Hsc Hidx Ha Hdot Hleaf.
  set (key := (a ++ String SCOPE_SEP b)%string).
  exists (set_d_var self (py_store (d_var self) (t self) (VDict (dict_set d key val)))),
         (dict_set d key val).
  assert (Hidx' : py_index (py_store (d_var self) (t self) (VDict (dict_set d key val)))
                           (t self) = Ok (VDict (dict_set d key val)))
    by (by eapply py_index_store).
  split; [|split; [done|split]].
  - apply (add_dynamic_value_ok self key val (VDict d)); [done|]. by rewrite Hsc.
  - apply (columns_of_value_leaf (dict_set d key val) key val []); [|done].
    apply dict_get_set_eq.
  - unfold get_scoped_value. simpl. rewrite Hidx'. simpl.
    change "."%char with SCOPE_SEP. unfold key.
    rewrite split_app_sep, split_dotless by done. simpl. unfold dict_mem.
    rewrite dict_get_set_ne by apply append_sep_neq. by rewrite Ha.
Qed.

Lemma dotted_key_unreachable_witness :
  exists self' d',
    add_dynamic_value ("val" ++ String SCOPE_SEP "loss") (VInt 1)
                      (exec new_iteration Log_init) = (Ok (), self') /\
    py_index (d_var self') (t (exec new_iteration Log_init)) = Ok (VDict d') /\
    ("val" ++ String SCOPE_SEP "loss")%string ∈ columns_of_value (VDict d') [] /\
    get_scoped_value self' (t (exec new_iteration Log_init))
                     ("val" ++ String SCOPE_SEP "loss") = Ok VNone.
Proof.
  apply (dotted_key_unreachable (exec new_iteration Log_init) "val" "loss" (VInt 1)
           [("_iteration", VInt 0)]); reflexivity.
Defined.

(** ** The data of a plot *)

Lemma has_none_false (row : list value) : has_none row = false -> VNone ∉ row.
Proof.
  unfold has_none. intros H Hin. apply list_elem_of_In in Hin.
  assert (existsb (fun v => match v with VNone => true | _ => false end) row = true)
    as Ht by (apply existsb_exists; by exists VNone).
  congruence.
Qed.

Lemma plot_loop_spec (self : Log) (columns : list string) (x_name : string)
    (ts : list nat) (x x' : list value) (values values' : list (list value)) :
  plot_loop self columns x_name ts x values = Ok (x', values') ->
  exists xs vs,
    x' = (x ++ xs)%list /\ values' = (values ++ vs)%list /\
    Forall2 (fun ti xv => get_scoped_value self (Z.of_nat ti) x_name = Ok xv)
            (List.filter (complete_at self columns) ts) xs /\
    Forall2 (fun ti row =>
               res_map (fun key => get_scoped_value self (Z.of_nat ti) key) columns
               = Ok row /\ has_none row = false)
            (List.filter (complete_at self columns) ts) vs.
Proof.
  revert x values. induction ts as [|ti rest IH]; intros x values; simpl.
  - intros [= <- <-]. exists [], []. rewrite !app_nil_r. repeat split; constructor.
  - assert (Hc := eq_refl (complete_at self columns ti)).
    unfold complete_at at 2 in Hc.
    destruct (res_map _ columns) as [row|] eqn:E; simpl; [|done].
    rewrite Hc. destruct (has_none row) eqn:Hn; simpl.
    + apply IH.
    + destruct (get_scoped_value self (Z.of_nat ti) x_name) as [xv|] eqn:F;
        simpl; [|done].
      intros Hloop. destruct (IH _ _ Hloop) as (xs & vs & -> & -> & Hx & Hv).
      exists (xv :: xs), (row :: vs). rewrite <- !app_assoc. simpl.
      split; [done|]. split; [done|]. split; constructor; done.
Qed.

(** When [plot_line] has data to send, the iterations it keeps are those
    up to [t] in which every requested column has a value other than
    [None], in their order: [values] holds the rows of these iterations, as
    wide as the columns and without [None], and [x] holds what
    [get_scoped_value] gives for the x column in the same iterations. *)
Theorem plot_line_data (self : Log) (columns : columns_arg) (x_name : option string)
    (x : list value) (values : list (list value)) :
  plot_line self columns x_name = Ok (Some (x, values)) ->
  d_var self <> [] /\
  Forall2 (fun ti xv =>
             get_scoped_value self (Z.of_nat ti) (x_name_or_default x_name) = Ok xv)
          (List.filter (complete_at self (columns_list columns)) (range (t self + 1)))
          x /\
  Forall2 (fun ti row =>
             res_map (fun key => get_scoped_value self (Z.of_nat ti) key)
                     (columns_list columns) = Ok row)
          (List.filter (complete_at self (columns_list columns)) (range (t self + 1)))
          values /\
  Forall (fun row => (VNone ∉ row) /\ length row = length (columns_list columns))
         values.
Proof.
  unfold plot_line. destruct (d_var self) as [|tree r] eqn:Ed; simpl; [done|].
  destruct (plot_loop _ _ _ _ _ _) as [[x' values']|] eqn:E; simpl; [|done].
  intros [= -> ->]. split; [done|].
  destruct (plot_loop_spec _ _ _ _ _ _ _ _ E) as (xs & vs & -> & -> & Hx & Hv).
  simpl. split; [done|]. split.
  - eapply Forall2_impl; [exact Hv|]. by intros ti row [H _].
  - apply Forall_forall. intros row Hrow.
    apply list_elem_of_lookup in Hrow as [i Hi].
    destruct (Forall2_lookup_r _ _ _ _ _ Hv Hi) as (ti & _ & Hres & Hnone).
    split; [by apply has_none_false|].
    apply res_map_Forall2 in Hres. symmetry. by eapply Forall2_length.
Qed.

Lemma plot_line_data_witness :
  plot_line (exec (new_iteration ;; add_dynamic_value "x" (VInt 5) ;; new_iteration ;;
                   new_iteration ;; add_dynamic_value "x" (VInt 7))%method Log_init)
            (ColumnsName "x") None
  = Ok (Some ([VInt 0; VInt 2], [[VInt 5]; [VInt 7]])) /\
  d_var (exec (new_iteration ;; add_dynamic_value "x" (VInt 5) ;; new_iteration ;;
               new_iteration ;; add_dynamic_value "x" (VInt 7))%method Log_init) <> [].
Proof.
  split; [reflexivity|].
  apply (plot_line_data
           (exec (new_iteration ;; add_dynamic_value "x" (VInt 5) ;; new_iteration ;;
                  new_iteration ;; add_dynamic_value "x" (VInt 7))%method Log_init)
           (ColumnsName "x") None [VInt 0; VInt 2] [[VInt 5]; [VInt 7]]).
  reflexivity.
Defined.

(** ** The shape of a merge *)

Lemma to_extended_array_shaped (self : Log) (arr : list (list value)) :
  to_extended_array self = Ok arr ->
  well_shaped arr /\ length arr = S (length (d_var self)).
Proof.
  intros Harr. apply to_extended_array_inv in Harr as (names & rows & _ & -> & Hrows).
  split.
  - exists (extended_names self names), rows. split; [done|].
    apply Forall_forall. intros row Hrow.
    apply list_elem_of_lookup in Hrow as [i Hi].
    destruct (Forall2_lookup_r _ _ _ _ _ Hrows Hi) as (ti & _ & Hcells).
    symmetry. by eapply Forall2_length.
  - simpl. f_equal. apply Forall2_length in Hrows. by rewrite length_seq in Hrows.
Qed.

Lemma dict_set_keys_NoDup {V : Type} (d : dict V) (k : string) (v : V) :
  NoDup (dict_keys d) -> NoDup (dict_keys (dict_set d k v)).
Proof.
  induction d as [|[k' v'] r IH]; simpl; intros Hnd.
  - apply NoDup_singleton.
  - apply NoDup_cons in Hnd as [Hk Hr].
    destruct (String.eqb k' k) eqn:E; simpl.
    + apply NoDup_cons. done.
    + apply NoDup_cons. split; [|by apply IH].
      apply String.eqb_neq in E.
      intros Hin. apply (dict_keys_set r k k' v) in Hin as [?|?]; [congruence|done].
Qed.

Lemma index_loop_nodup (cols : list value) (j : nat) (index index' : dict nat)
    (all_columns all_columns' : dict Z) :
  index_loop cols j index all_columns = Ok (index', all_columns') ->
  NoDup (dict_keys all_columns) -> NoDup (dict_keys all_columns').
Proof.
  revert j index all_columns. induction cols as [|c r IH]; intros j index all_columns; simpl.
  - by intros [= _ <-].
  - destruct (header_name c) as [name|]; simpl; [|done].
    intros Hloop Hnd. eapply IH; [exact Hloop|]. by apply dict_set_keys_NoDup.
Qed.

Lemma indexes_loop_spec (arrays : list (list (list value))) :
  Forall well_shaped arrays ->
  forall indexes0 all0,
  exists indexes all_columns,
    indexes_loop arrays indexes0 all0 = Ok ((indexes0 ++ indexes)%list, all_columns) /\
    Forall2 (fun arr index =>
               exists hs rows,
                 arr = map VStr hs :: rows /\
                 Forall (fun row => length row = length hs) rows /\
                 indexes_header hs index)
            arrays indexes /\
    (forall n, n ∈ dict_keys all_columns <->
               n ∈ dict_keys all0 \/ Exists (fun arr => has_column arr n) arrays) /\
    (NoDup (dict_keys all0) -> NoDup (dict_keys all_columns)).
Proof.
  induction 1 as [|arr r Harr _ IH]; intros indexes0 all0; simpl.
  - exists [], all0. rewrite app_nil_r. split; [done|]. split; [constructor|].
    split; [|done]. intros n. rewrite Exists_nil. tauto.
  - destruct Harr as (hs & rows & -> & Hw). simpl.
    destruct (index_loop_spec hs 0 [] all0) as (index & all1 & Hloop & Hout & Hin & Hk).
    rewrite Hloop. simpl.
    destruct (IH (indexes0 ++ [index])%list all1)
      as (indexes & all2 & Hrec & Hf & Hk2 & Hnd).
    exists (index :: indexes), all2.
    split; [by rewrite Hrec, <- app_assoc|]. split; [|split].
    + constructor; [|done]. exists hs, rows. split; [done|]. split; [done|].
      split; [exact Hout | exact Hin].
    + intros n. rewrite Hk2, Hk, Exists_cons. rewrite has_column_names. tauto.
    + intros H0. apply Hnd. by eapply index_loop_nodup.
Qed.

Lemma res_map_seq_ok {B : Type} (f : nat -> res B) (P : nat -> B -> Prop)
    (a n : nat) :
  (forall i, (a <= i < a + n)%nat -> exists y, f i = Ok y /\ P i y) ->
  exists ys,
    res_map f (seq a n) = Ok ys /\
    length ys = n /\
    forall i y, ys !! i = Some y -> P (a + i)%nat y.
Proof.
  revert a. induction n as [|n IH]; intros a Hall; simpl.
  - exists []. split; [done|]. split; [done|]. intros i y H. inversion H.
  - destruct (Hall a) as (y & Hy & Hp); [lia|]. rewrite Hy. simpl.
    destruct (IH (S a)) as (ys & Hys & Hlen & Hps).
    { intros i Hi. apply Hall. lia. }
    rewrite Hys. simpl. exists (y :: ys). split; [done|].
    split; [simpl; by rewrite Hlen|].
    intros [|i] y' Hl; simpl in Hl.
    + injection Hl as <-. by rewrite Nat.add_0_r.
    + replace (a + S i)%nat with (S a + i)%nat by lia. by apply Hps.
Qed.

Lemma concat_length_sum {A B : Type} (g : A -> nat) (l : list A) (ls : list (list B)) :
  Forall2 (fun a out => length out = g a) l ls ->
  length (concat ls) = sum_list_with g l.
Proof.
  induction 1 as [|a out l ls H _ IH]; simpl; [done|].
  rewrite length_app. lia.
Qed.

Lemma concat_Forall {B : Type} (P : B -> Prop) (ls : list (list B)) :
  Forall (Forall P) ls -> Forall P (concat ls).
Proof.
  induction 1 as [|l ls H _ IH]; simpl; [constructor|]. by apply Forall_app.
Qed.

(** For any number of logs whose extended arrays exist, [logs_to_dataframe]
    returns: the header is [_log_idx], [_log_file] and then, each once, the
    names that some log has as a column; there are as many rows as the logs
    have iterations in all; and every row is as wide as the header. *)
Theorem merge_shape (files : list (string * Log)) (arrays : list (list (list value))) :
  Forall2 (fun f arr => to_extended_array (snd f) = Ok arr) files arrays ->
  exists keys retour,
    logs_to_dataframe files = Ok ("_log_idx" :: "_log_file" :: keys, retour) /\
    NoDup keys /\
    (forall n, n ∈ keys <-> Exists (fun arr => has_column arr n) arrays) /\
    length retour = sum_list_with (fun f => length (d_var (snd f))) files /\
    Forall (fun row => length row = S (S (length keys))) retour.
Proof.
  intros Hfiles. unfold logs_to_dataframe.
  rewrite (proj2 (res_map_Forall2 _ files arrays) Hfiles). simpl.
  assert (Hshaped : Forall well_shaped arrays).
  { apply Forall_forall. intros arr Harr.
    apply list_elem_of_lookup in Harr as [i Hi].
    destruct (Forall2_lookup_r _ _ _ _ _ Hfiles Hi) as (f & _ & Hok).
    by apply to_extended_array_shaped in Hok as [? _]. }
  destruct (indexes_loop_spec arrays Hshaped [] [])
    as (indexes & all_columns & Hloop & Hidx & Hkeys & Hnd).
  rewrite Hloop. simpl.
  set (all_names := "_log_idx" :: "_log_file" :: dict_keys all_columns).
  assert (Hlenf : length files = length arrays) by (by eapply Forall2_length).
  assert (Hleni : length arrays = length indexes) by (by eapply Forall2_length).
  destruct (res_map_seq_ok
              (merged_rows all_names (map fst files) arrays indexes)
              (fun i out =>
                 exists f, files !! i = Some f /\
                           length out = length (d_var (snd f)) /\
                           Forall (fun row => length row = length all_names) out)
              0 (length arrays)) as (outs & Houts & Hlo & Hp).
  { intros i Hi.
    destruct (lookup_lt_is_Some_2 arrays i) as [arr Ha]; [lia|].
    destruct (lookup_lt_is_Some_2 files i) as [f Hf]; [lia|].
    destruct (Forall2_lookup_l _ _ _ _ _ Hidx Ha)
      as (index & Hi' & hs & rows & -> & Hw & Hh).
    destruct (merged_rows_spec all_names (map fst files) arrays indexes i
                (map VStr hs) rows (fst f) index Ha) as (out & Hout & Hf2).
    { by rewrite list_lookup_fmap, Hf. }
    { done. }
    { intros line cn idx Hline Hget.
      apply (indexes_header_lookup _ _ _ _ Hh) in Hget.
      rewrite Forall_forall in Hw. rewrite (Hw line Hline).
      by eapply lookup_lt_Some. }
    exists out. split; [done|]. exists f. split; [done|]. split.
    - pose proof (Forall2_lookup_lr _ _ _ _ _ _ Hfiles Hf Ha) as Hok. simpl in Hok.
      apply to_extended_array_shaped in Hok as [_ Hl].
      simpl in Hl. injection Hl as Hl. rewrite <- Hl.
      symmetry. by eapply Forall2_length.
    - apply Forall_forall. intros row Hrow.
      apply list_elem_of_lookup in Hrow as [q Hq].
      by destruct (Forall2_lookup_r _ _ _ _ _ Hf2 Hq) as (line & _ & Hlen & _). }
  unfold range. rewrite Nat2Z.id. fold all_names. rewrite Houts. simpl.
  exists (dict_keys all_columns), (concat outs). split; [done|].
  split; [apply Hnd; constructor|]. split.
  { intros n. rewrite Hkeys. split; [intros [H|H]; [inversion H | done] | by right]. }
  split.
  - apply concat_length_sum. apply Forall2_same_length_lookup_2; [lia|].
    intros i f out Hf Hout. destruct (Hp i out Hout) as (f' & Hf' & Hl & _).
    simpl in Hf'. congruence.
  - apply concat_Forall. apply Forall_forall. intros out Hout.
    apply list_elem_of_lookup in Hout as [i Hi].
    by destruct (Hp i out Hi) as (f' & _ & _ & Hw).
Qed.

Lemma merge_shape_witness :
  exists keys retour,
    logs_to_dataframe
      [("a.log", exec (new_iteration ;; add_dynamic_value "x" (VInt 1) ;; new_iteration ;;
                       add_dynamic_value "x" (VInt 2))%method Log_init);
       ("b.log", exec (new_iteration ;; add_dynamic_value "y" (VInt 3))%method Log_init);
       ("c.log", exec (add_static_value "lr" (VInt 4)) Log_init)]
    = Ok ("_log_idx" :: "_log_file" :: keys, retour) /\
    NoDup keys /\
    length retour = 3%nat.
Proof.
  destruct (merge_shape
              [("a.log", exec (new_iteration ;; add_dynamic_value "x" (VInt 1) ;;
                               new_iteration ;;
                               add_dynamic_value "x" (VInt 2))%method Log_init);
               ("b.log", exec (new_iteration ;;
                               add_dynamic_value "y" (VInt 3))%method Log_init);
               ("c.log", exec (add_static_value "lr" (VInt 4)) Log_init)]
              [[[VStr "_iteration"; VStr "_iteration"; VStr "x"];
                [VInt 0; VInt 0; VInt 1]; [VInt 1; VInt 1; VInt 2]];
               [[VStr "_iteration"; VStr "_iteration"; VStr "y"];
                [VInt 0; VInt 0; VInt 3]];
               [[VStr "_iteration"; VStr "_s_lr"]]])
    as (keys & retour & Hm & Hnd & _ & Hl & _).
  - repeat (apply Forall2_cons; split; [vm_compute; reflexivity|]). apply Forall2_nil.
    done.
  - exists keys, retour. split; [exact Hm|]. split; [exact Hnd | exact Hl].
Defined.

Lemma res_map_raise {A B : Type} (f : A -> res B) (pre post : list A) (x : A)
    (e : exn) :
  Forall (fun a => exists y, f a = Ok y) pre ->
  f x = Raise e ->
  res_map f (pre ++ x :: post) = Raise e.
Proof.
  intros Hpre Hx. induction Hpre as [|a pre [y Hy] _ IH]; simpl.
  - by rewrite Hx.
  - by rewrite Hy, IH.
Qed.

(** [logs_to_dataframe] raises what [to_extended_array] raises on the first
    log on which it raises: one log that cannot be exported makes the merge
    of all of them fail. *)
Theorem merge_raises (pre post : list (string * Log)) (f : string * Log) (e : exn) :
  Forall (fun g => exists arr, to_extended_array (snd g) = Ok arr) pre ->
  to_extended_array (snd f) = Raise e ->
  logs_to_dataframe (pre ++ f :: post) = Raise e.
Proof.
  intros Hpre Hf. unfold logs_to_dataframe.
  by rewrite (res_map_raise (fun g => to_extended_array (snd g)) pre post f e Hpre Hf).
Qed.

Lemma merge_raises_witness :
  logs_to_dataframe
    ([("a.log", exec (new_iteration ;; add_dynamic_value "x" (VInt 1))%method Log_init)]
     ++ ("b.log", exec (new_iteration ;;
                        add_dynamic_value "_s_x" (VInt 1))%method Log_init)
     :: [("c.log", exec new_iteration Log_init)])
  = Raise KeyError.
Proof.
  apply (merge_raises
           [("a.log", exec (new_iteration ;; add_dynamic_value "x" (VInt 1))%method Log_init)]
           [("c.log", exec new_iteration Log_init)]
           ("b.log", exec (new_iteration ;;
                           add_dynamic_value "_s_x" (VInt 1))%method Log_init)
           KeyError).
  - apply Forall_cons. split; [|apply Forall_nil; done].
    eexists. vm_compute. reflexivity.
  - vm_compute. reflexivity.
Defined.

(** ** The extended array and the plain array *)

Lemma res_map_total {A B : Type} (f : A -> res B) (l : list A) :
  (forall x, x ∈ l -> exists y, f x = Ok y) ->
  exists ys, res_map f l = Ok ys.
Proof.
  induction l as [|x r IH]; intros Hall; simpl.
  - by eexists.
  - destruct (Hall x) as [y Hy]; [apply list_elem_of_here|]. rewrite Hy. simpl.
    destruct IH as [ys Hys].
    { intros x' Hx'. apply Hall. by apply list_elem_of_further. }
    rewrite Hys. simpl. by eexists.
Qed.

(** When [to_array] returns and no generated column name starts with
    [_s_], [to_extended_array] returns too, with the same number of rows;
    its rows are wider by the iteration column and the static columns, and
    under every dynamic column other than [_iteration] they hold the cell
    of the plain array. *)
Theorem to_extended_array_extends (self : Log) (names : list string)
    (rows : list (list value)) :
  to_array self = Ok (map VStr names :: rows) ->
  Forall (fun n => startswith "_s_" n = false) names ->
  exists rows',
    to_extended_array self = Ok (map VStr (extended_names self names) :: rows') /\
    length rows' = length rows /\
    forall (ti : nat) row row',
      rows !! ti = Some row -> rows' !! ti = Some row' ->
      length row' = S (length row + length (s_var self)) /\
      row' !! 0%nat = Some (VInt (Z.of_nat ti)) /\
      forall j name, names !! j = Some name -> name <> "_iteration" ->
        row' !! S j = row !! j.
Proof.
  intros Harr Hs.
  destruct (to_array_inv _ _ Harr) as (names' & rows0 & Hn & Heq & Hrows).
  injection Heq as Hnames <-. apply map_VStr_inj in Hnames. subst names'.
  assert (Hlen : length rows = length (d_var self)).
  { apply Forall2_length in Hrows. by rewrite length_seq in Hrows. }
  assert (Htotal : exists rows',
            res_map (fun ti => res_map (extended_cell self ti) (extended_names self names))
                    (range (Z.of_nat (length (d_var self)))) = Ok rows').
  { apply res_map_total. intros ti Hti. unfold range in Hti. rewrite Nat2Z.id in Hti.
    apply elem_of_seq in Hti as [_ Hti]. simpl in Hti.
    destruct (lookup_lt_is_Some_2 rows ti) as [row Hrow]; [lia|].
    destruct (Forall2_lookup_r _ _ _ _ _ Hrows Hrow) as (ti' & Hti' & Hcells).
    apply lookup_seq in Hti' as [-> _]. simpl in Hcells.
    apply res_map_total. intros l Hl. unfold extended_names in Hl.
    apply elem_of_app in Hl as [Hl|Hl].
    - apply elem_of_cons in Hl as [->|Hl]; [by eexists|].
      unfold extended_cell. rewrite Forall_forall in Hs. rewrite (Hs l Hl).
      destruct (String.eqb l "_iteration"); [by eexists|].
      apply list_elem_of_lookup in Hl as [j Hj].
      destruct (Forall2_lookup_l _ _ _ _ _ Hcells Hj) as (c & _ & Hc). by exists c.
    - apply list_elem_of_fmap in Hl as (k & -> & Hk).
      apply dict_get_keys in Hk as [c Hc]. exists c. by apply extended_cell_static. }
  destruct Htotal as [rows' Hrows'].
  exists rows'. split.
  { unfold to_extended_array. rewrite Hn. cbn [rbind]. by rewrite Hrows'. }
  apply res_map_Forall2 in Hrows'. unfold range in Hrows'. rewrite Nat2Z.id in Hrows'.
  split.
  { apply Forall2_length in Hrows'. rewrite length_seq in Hrows'. congruence. }
  intros ti row row' Hrow Hrow'.
  destruct (Forall2_lookup_r _ _ _ _ _ Hrows Hrow) as (ti1 & Hti1 & Hcells).
  apply lookup_seq in Hti1 as [-> _]. simpl in Hcells.
  destruct (Forall2_lookup_r _ _ _ _ _ Hrows' Hrow') as (ti2 & Hti2 & Hcells').
  apply lookup_seq in Hti2 as [-> _]. cbv beta in Hcells'. rewrite Nat.add_0_l in Hcells'.
  apply res_map_Forall2 in Hcells'.
  split; [|split].
  - apply Forall2_length in Hcells, Hcells'. rewrite <- Hcells', <- Hcells.
    unfold extended_names. rewrite length_app. simpl.
    rewrite length_map. unfold dict_keys. by rewrite length_map.
  - destruct (Forall2_lookup_l _ _ _ _ _ Hcells' (eq_refl : extended_names self names !! 0%nat = Some "_iteration"))
      as (c & Hc & Hok).
    unfold extended_cell in Hok. simpl in Hok. congruence.
  - intros j name Hj Hne.
    assert (Hj' : extended_names self names !! S j = Some name).
    { unfold extended_names. simpl. by rewrite lookup_app_l by (by eapply lookup_lt_Some). }
    destruct (Forall2_lookup_l _ _ _ _ _ Hcells' Hj') as (c' & Hc' & Hok').
    destruct (Forall2_lookup_l _ _ _ _ _ Hcells Hj) as (c & Hc & Hok).
    unfold extended_cell in Hok'. rewrite Forall_forall in Hs.
    rewrite (Hs name) in Hok' by (apply list_elem_of_lookup; by exists j).
    apply String.eqb_neq in Hne. rewrite Hne in Hok'. congruence.
Qed.

Lemma to_extended_array_extends_witness :
  exists rows',
    to_extended_array
      (exec (add_static_value "lr" (VInt 3) ;; new_iteration ;;
             add_dynamic_value "x" (VInt 1) ;; new_iteration)%method Log_init)
    = Ok (map VStr
            (extended_names
               (exec (add_static_value "lr" (VInt 3) ;; new_iteration ;;
                      add_dynamic_value "x" (VInt 1) ;; new_iteration)%method Log_init)
               ["_iteration"; "x"]) :: rows') /\
    length rows' = length [[VInt 0; VInt 1]; [VInt 1; VNone]].
Proof.
  destruct (to_extended_array_extends
              (exec (add_static_value "lr" (VInt 3) ;; new_iteration ;;
                     add_dynamic_value "x" (VInt 1) ;; new_iteration)%method Log_init)
              ["_iteration"; "x"] [[VInt 0; VInt 1]; [VInt 1; VNone]])
    as (rows' & H1 & H2 & _).
  - vm_compute. reflexivity.
  - repeat constructor.
  - exists rows'. split; [exact H1 | exact H2].
Defined.
